(** * acrnprobe/probeutils.c

    Event identifiers, rotating log directories, crash reports and boot
    session tracking of the ACRN crash-log probe, as a shallow embedding.

    Conventions of the embedding:
    - a C integer is a [Z] with its wrap-around written out ([CInt]);
    - a [char *] argument is the [string] it points to, [None] for a null
      pointer where the source tests for one;
    - an out-parameter is passed in and returned (state passing);
    - the file system, the two clocks and the loaded configuration are
      explicit ([world], [list sender_t]);
    - allocation failure ([malloc], [asprintf]) and the logging macros are
      outside the model: they neither read nor write the modelled store;
    - a buffer is the string it holds: a write past its end has no
      counterpart, so a statement about a result says when the unchecked
      writes of the source stay within their buffers;
    - [hist_raise_infoerror] of history.c is a parameter. *)

From Stdlib Require Import ZArith Ascii String List Lia.
From Stdlib Require Import DecimalString DecimalZ DecimalPos DecimalFacts.
From stdpp Require Import gmap strings.

Open Scope Z_scope.

(** ** C integer conversions *)

Module CInt.

Definition to_uint (bits x : Z) : Z := x mod 2 ^ bits.

Definition to_sint (bits x : Z) : Z :=
  let r := x mod 2 ^ bits in
  if r <? 2 ^ (bits - 1) then r else r - 2 ^ bits.

(** [unsigned int], [int], [unsigned long long], [long long]. *)
Definition to_uint32 : Z -> Z := to_uint 32.
Definition to_sint32 : Z -> Z := to_sint 32.
Definition to_uint64 : Z -> Z := to_uint 64.
Definition to_sint64 : Z -> Z := to_sint 64.

End CInt.

(** ** The libc text conversions the probe relies on *)

Module Fmt.

Fixpoint take (n : nat) (s : string) : string :=
  match n, s with
  | S k, String c s' => String c (take k s')
  | _, _ => EmptyString
  end.

Fixpoint zeros (n : nat) : string :=
  match n with
  | O => EmptyString
  | S k => String "0" (zeros k)
  end.

(** ["%d"], ["%lld"]: signed decimal, no padding. *)
Definition fmt_d (z : Z) : string := NilZero.string_of_int (Z.to_int z).

(** ["%u"] of a non-negative value. *)
Definition fmt_u (z : Z) : string := fmt_d z.

Definition pad0 (width : nat) (digits : string) : string :=
  zeros (width - String.length digits) +:+ digits.

(** ["%0<width>d"]: the sign counts in the width, zeros follow it. *)
Definition fmt_0d (width : nat) (z : Z) : string :=
  if z <? 0 then String "-" (pad0 (width - 1) (fmt_d (- z)))
  else pad0 width (fmt_d z).

Definition hex_digit (d : Z) : ascii :=
  ascii_of_N (Z.to_N (if d <? 10 then 48 + d else 87 + d)).

(** ["%02x"] of an [unsigned char]. *)
Definition fmt_02x (b : Z) : string :=
  String (hex_digit (b / 16)) (String (hex_digit (b mod 16)) EmptyString).

(** [snprintf(buf, size, ...)]: at most [size - 1] characters are stored;
    with [size = 0] the buffer is left as it was. *)
Definition snprintf (size : nat) (old formatted : string) : string :=
  match size with
  | O => old
  | S k => take k formatted
  end.

(** An unsigned decimal numeral: one or more digits and nothing else. *)
Definition scan_u (s : string) : option Z :=
  match NilZero.uint_of_string s with
  | Some d => Some (Z.of_uint d)
  | None => None
  end.

Definition is_space (c : ascii) : bool :=
  let n := N_of_ascii c in
  (N.eqb n 32 || (N.leb 9 n && N.leb n 13))%bool.

Definition digit_val (c : ascii) : option Z :=
  let n := Z.of_N (N_of_ascii c) in
  if (48 <=? n) && (n <=? 57) then Some (n - 48) else None.

Fixpoint skip_space (s : string) : string :=
  match s with
  | String c s' => if is_space c then skip_space s' else s
  | EmptyString => s
  end.

Fixpoint digits_val (acc : Z) (s : string) : Z :=
  match s with
  | String c s' =>
      match digit_val c with
      | Some d => digits_val (10 * acc + d) s'
      | None => acc
      end
  | EmptyString => acc
  end.

(** The range of [long] on the 64-bit targets of the hypervisor. *)
Definition LONG_MAX : Z := 2 ^ 63 - 1.
Definition LONG_MIN : Z := - 2 ^ 63.

(** [strtol(s, NULL, 10)]: leading white space, an optional sign, the
    longest run of digits; 0 when there is none.  A value out of [long]
    is replaced by the nearest bound. *)
Definition strtol (s : string) : Z :=
  let saturate (v : Z) := Z.max LONG_MIN (Z.min LONG_MAX v) in
  match skip_space s with
  | String "-" s' => saturate (- digits_val 0 s')
  | String "+" s' => saturate (digits_val 0 s')
  | s' => saturate (digits_val 0 s')
  end.

(** [atoi] is [(int) strtol(s, NULL, 10)]: the [long] is cut to [int]. *)
Definition atoi (s : string) : Z := CInt.to_sint32 (strtol s).

(** The bytes of a C string, as [strlen] and a cast to
    [unsigned char *] present them. *)
Definition bytes_of_string (s : string) : list Z :=
  map (fun c => Z.of_N (N_of_ascii c)) (list_ascii_of_string s).

(** A raw buffer read as a C string: everything before the first NUL. *)
Fixpoint cstr (raw : string) : string :=
  match raw with
  | String c s' =>
      if N.eqb (N_of_ascii c) 0 then EmptyString else String c (cstr s')
  | EmptyString => EmptyString
  end.

Definition strcmp_eq (a b : string) : bool := String.eqb (cstr a) (cstr b).

Definition is_lower_hex (c : ascii) : bool :=
  let n := N_of_ascii c in
  ((N.leb 48 n && N.leb n 57) || (N.leb 97 n && N.leb n 102))%bool.

End Fmt.

(** ** SHA-256 (FIPS 180-4), the digest OpenSSL's [SHA256_*] computes *)

Module SHA256.

Definition SHA256_DIGEST_LENGTH : nat := 32.

Definition mask32 : Z := 0xffffffff.
Definition add32 (a b : Z) : Z := (a + b) mod 2 ^ 32.
Definition rotr (n x : Z) : Z :=
  Z.lor (Z.shiftr x n) (Z.land (Z.shiftl x (32 - n)) mask32).
Definition shr (n x : Z) : Z := Z.shiftr x n.

Definition Ch (x y z : Z) : Z :=
  Z.lxor (Z.land x y) (Z.land (Z.lxor x mask32) z).
Definition Maj (x y z : Z) : Z :=
  Z.lxor (Z.lxor (Z.land x y) (Z.land x z)) (Z.land y z).
Definition Sigma0 (x : Z) : Z := Z.lxor (Z.lxor (rotr 2 x) (rotr 13 x)) (rotr 22 x).
Definition Sigma1 (x : Z) : Z := Z.lxor (Z.lxor (rotr 6 x) (rotr 11 x)) (rotr 25 x).
Definition sigma0 (x : Z) : Z := Z.lxor (Z.lxor (rotr 7 x) (rotr 18 x)) (shr 3 x).
Definition sigma1 (x : Z) : Z := Z.lxor (Z.lxor (rotr 17 x) (rotr 19 x)) (shr 10 x).

(** The first sixty-four prime numbers. *)
Definition primes : list Z :=
  [
    2; 3; 5; 7; 11; 13; 17; 19; 23; 29; 31; 37; 41; 43; 47; 53;
    59; 61; 67; 71; 73; 79; 83; 89; 97; 101; 103; 107; 109; 113; 127; 131;
    137; 139; 149; 151; 157; 163; 167; 173; 179; 181; 191; 193; 197; 199; 211; 223;
    227; 229; 233; 239; 241; 251; 257; 263; 269; 271; 277; 281; 283; 293; 307; 311 ].

(** The integer cube root, found bit by bit from bit [bits - 1] down. *)
Fixpoint icbrt (bits : nat) (x acc : Z) : Z :=
  match bits with
  | O => acc
  | S k =>
      let cand := acc + 2 ^ Z.of_nat k in
      if cand * cand * cand <=? x then icbrt k x cand else icbrt k x acc
  end.

(** The first 32 bits of the fractional part of a cube root, of a square
    root. *)
Definition frac_cbrt (p : Z) : Z := icbrt 40 (p * 2 ^ 96) 0 mod 2 ^ 32.
Definition frac_sqrt (p : Z) : Z := Z.sqrt (p * 2 ^ 64) mod 2 ^ 32.

(** The round constants: from the cube roots of the primes. *)
Definition K : list Z := map frac_cbrt primes.

(** The eight working words a..h, also the chaining value. *)
Record hash := Hash { ha : Z; hb : Z; hc : Z; hd : Z; he : Z; hf : Z; hg : Z; hh : Z }.

(** The initial hash value: from the square roots of the first eight
    primes. *)
Definition H0 : hash :=
  Hash (frac_sqrt 2) (frac_sqrt 3) (frac_sqrt 5) (frac_sqrt 7)
       (frac_sqrt 11) (frac_sqrt 13) (frac_sqrt 17) (frac_sqrt 19).

Definition be32 (w : Z) : list Z :=
  [ (w / 2 ^ 24) mod 256; (w / 2 ^ 16) mod 256; (w / 2 ^ 8) mod 256; w mod 256 ].

Definition be64 (w : Z) : list Z := be32 (w / 2 ^ 32) ++ be32 w.

(** Padding: 0x80, zeros up to 56 mod 64, the bit length on 64 bits. *)
Definition pad (msg : list Z) : list Z :=
  let len := Z.of_nat (length msg) in
  msg ++ [128] ++ repeat 0 (Z.to_nat ((55 - len) mod 64)) ++ be64 (8 * len).

Fixpoint words (n : nat) (bytes : list Z) : list Z :=
  match n, bytes with
  | S k, b0 :: b1 :: b2 :: b3 :: rest =>
      (((b0 * 256 + b1) * 256 + b2) * 256 + b3) :: words k rest
  | _, _ => []
  end.

(** The message schedule: 16 block words extended to 64. *)
Fixpoint extend (n : nat) (W : list Z) : list Z :=
  match n with
  | O => W
  | S k =>
      let t := length W in
      let w := add32 (add32 (sigma1 (nth (t - 2) W 0)) (nth (t - 7) W 0))
                     (add32 (sigma0 (nth (t - 15) W 0)) (nth (t - 16) W 0)) in
      extend k (W ++ [w])
  end.

Definition round (s : hash) (kw : Z * Z) : hash :=
  let T1 := add32 (add32 (add32 (hh s) (Sigma1 (he s))) (Ch (he s) (hf s) (hg s)))
                  (add32 (fst kw) (snd kw)) in
  let T2 := add32 (Sigma0 (ha s)) (Maj (ha s) (hb s) (hc s)) in
  Hash (add32 T1 T2) (ha s) (hb s) (hc s) (add32 (hd s) T1) (he s) (hf s) (hg s).

Definition compress (h : hash) (block : list Z) : hash :=
  let W := extend 48 (words 16 block) in
  let s := fold_left round (combine K W) h in
  Hash (add32 (ha h) (ha s)) (add32 (hb h) (hb s)) (add32 (hc h) (hc s))
       (add32 (hd h) (hd s)) (add32 (he h) (he s)) (add32 (hf h) (hf s))
       (add32 (hg h) (hg s)) (add32 (hh h) (hh s)).

Fixpoint blocks (n : nat) (h : hash) (bytes : list Z) : hash :=
  match n with
  | O => h
  | S k => blocks k (compress h (firstn 64 bytes)) (skipn 64 bytes)
  end.

Definition digest (msg : list Z) : list Z :=
  let p := pad msg in
  let h := blocks (length p / 64) H0 p in
  be32 (ha h) ++ be32 (hb h) ++ be32 (hc h) ++ be32 (hd h) ++
  be32 (he h) ++ be32 (hf h) ++ be32 (hg h) ++ be32 (hh h).

(** The streaming interface: the context is the input absorbed so far. *)
Definition SHA256_CTX : Type := list Z.
Definition SHA256_Init : SHA256_CTX := [].
Definition SHA256_Update (c : SHA256_CTX) (data : list Z) : SHA256_CTX := c ++ data.
Definition SHA256_Final (c : SHA256_CTX) : list Z := digest c.

End SHA256.

(** ** The environment: files, clocks, configuration *)

(** [struct timespec] as [clock_gettime] fills it. *)
Record timespec := { tv_sec : Z; tv_nsec : Z }.

(** The fields of [struct tm] that the date format reads. *)
Record tm := { tm_sec : Z; tm_min : Z; tm_hour : Z; tm_mday : Z; tm_mon : Z; tm_year : Z }.

(** What the probe sees of the machine.  [io_fault] holds the paths on
    which the storage layer refuses every operation; [boottime] is what
    [clock_gettime(CLOCK_BOOTTIME)] delivers and [walltime] what
    [localtime(time())] delivers, [None] when the call fails. *)
Record world := World {
  files : gmap string string;
  dirs : gset string;
  io_fault : gset string;
  boottime : option timespec;
  walltime : option tm
}.

Definition set_files (w : world) (f : gmap string string) : world :=
  World f (dirs w) (io_fault w) (boottime w) (walltime w).

Definition set_dirs (w : world) (d : gset string) : world :=
  World (files w) d (io_fault w) (boottime w) (walltime w).

(** An entry of the sender table (load_conf.h): only the fields read here. *)
Record sender_t := { name : string; outdir : string; maxcrashdirs : string }.

(** probeutils.h declares the two enumerations; a C enum object can hold
    any integer, which is what the [default] and [else] branches are for. *)
Inductive key_type := KEY_SHORT | KEY_LONG | KEY_INVALID (raw : Z).
Inductive e_dir_mode := MODE_CRASH | MODE_STATS | MODE_VMEVENT | MODE_INVALID (raw : Z).

Definition nl : string := String "010"%char EmptyString.

(** Modelled from the spec: probeutils.h is not part of the sources.  The
    identifier is 20 characters for the short variant and 32 for the long
    one (also the documentation comment of [generate_event_id]). *)
Definition SHORT_KEY_LENGTH : nat := 20.
Definition LONG_KEY_LENGTH : nat := 32.

(** [PATH_MAX] of linux/limits.h. *)
Definition PATH_MAX : nat := 4096.

Definition CRASH_CURRENT_LOG : string := "currentcrashlog".
Definition STATS_CURRENT_LOG : string := "currentstatslog".
Definition VM_CURRENT_LOG : string := "currentvmlog".
Definition BOOTID_NODE : string := "/proc/sys/kernel/random/boot_id".
Definition BOOTID_LOG : string := "currentbootid".

(** ** The collaborators of fsutils.c and load_conf.c *)

Module Fs.

(** Modelled from the spec: fsutils.c is not part of the sources.
    A path exists when it names a file or a directory. *)
Definition file_exists (w : world) (path : string) : bool :=
  match files w !! path with
  | Some _ => true
  | None => bool_decide (path ∈ dirs w)
  end.

(** Modelled from the spec: fsutils.c is not part of the sources.
    Reads a whole file: result 0 with the size and the raw bytes, or -1
    when the file is absent or cannot be read. *)
Definition read_file (w : world) (path : string) : Z * Z * string :=
  if bool_decide (path ∈ io_fault w) then (-1, 0, EmptyString)
  else match files w !! path with
       | Some data => (0, Z.of_nat (String.length data), data)
       | None => (-1, 0, EmptyString)
       end.

(** Modelled from the spec: fsutils.c is not part of the sources.
    The target file is fully replaced in one operation; a failure of the
    storage layer is reported and leaves the store as it was. *)
Definition overwrite_file (w : world) (path value : string) : Z * world :=
  if bool_decide (path ∈ io_fault w) || bool_decide (path ∈ dirs w)
  then (-1, w)
  else (0, set_files w (<[path := value]> (files w))).

(** One trailing line break is not part of the numeral. *)
Fixpoint chomp (s : string) : string :=
  match s with
  | String c EmptyString => if Ascii.eqb c "010" then EmptyString else s
  | String c s' => String c (chomp s')
  | EmptyString => EmptyString
  end.

(** Modelled from the spec: fsutils.c is not part of the sources.
    Reads the persisted counter, a plain ASCII decimal integer with no
    line break required; if the file does not exist or is malformed
    (not such a numeral, or not an [unsigned int]) the current index is
    0.  An error is returned if the file cannot be read. *)
Definition file_read_int (w : world) (path : string) (current : Z) : Z * Z :=
  if bool_decide (path ∈ io_fault w) || bool_decide (path ∈ dirs w)
  then (-1, current)
  else match files w !! path with
       | None => (0, 0)
       | Some data =>
           match Fmt.scan_u (chomp data) with
           | Some n => if n <? 2 ^ 32 then (0, n) else (0, 0)
           | None => (0, 0)
           end
       end.

(** Modelled from the spec: fsutils.c is not part of the sources.
    Computes next = (current + 1) mod maxSlots in [unsigned int]
    arithmetic and persists next back to the counter file.  The spec
    gives no next value for maxSlots = 0 (the C expression would divide
    by zero): that call is modelled as a failure that writes nothing. *)
Definition file_update_int (w : world) (path : string) (current max : Z)
  : Z * world :=
  if max =? 0 then (-1, w)
  else overwrite_file w path (Fmt.fmt_u (CInt.to_uint32 (current + 1) mod max)).

(** [mkdir(path, 0777)] on the flat store of the model: -1 when the path
    already exists or the storage layer refuses. *)
Definition mkdir (w : world) (path : string) : Z * world :=
  if file_exists w path || bool_decide (path ∈ io_fault w) then (-1, w)
  else (0, set_dirs w ({[ path ]} ∪ dirs w)).

(** Modelled from the spec: load_conf.c is not part of the sources.
    Looks a sender up by name in the loaded configuration; null when the
    name is not registered. *)
Definition get_sender_by_name (conf : list sender_t) (nm : string)
  : option sender_t :=
  List.find (fun s => String.eqb (name s) nm) conf.

End Fs.

(** ** probeutils.c *)

Section Probe.

(** Buffer sizes of probeutils.h and property.h, not part of the sources. *)
Variables VERSION_SIZE UPTIME_SIZE LONG_TIME_SIZE : nat.

(** The process-wide build version and device identifier. *)
Variables gbuildversion guuid : string.

(** The loaded sender configuration. *)
Variable conf : list sender_t.

(** [hist_raise_infoerror(type)] of history.c, which is not part of the
    sources: it reports an error event to the history of the probe.  What
    it makes of the store is not known here, so it is a parameter, and a
    statement that depends on it says what it takes for granted. *)
Variable hist_raise_infoerror : world -> string -> world.

(** Returns [unsigned long long]; a failing clock gives [(unsigned long
    long) -1]. *)
Definition get_uptime (w : world) : Z :=
  match boottime w with
  | None => CInt.to_uint64 (-1)
  | Some ts =>
      let time_ns := CInt.to_sint64 (tv_sec ts * 1000000000 + tv_nsec ts) in
      CInt.to_uint64 time_ns
  end.

(** Returns the result, the buffer and [*hours] ([None] while the
    pointee has not been written). *)
Definition get_uptime_string (w : world) (newuptime : string)
  : Z * string * option Z :=
  let tm := CInt.to_sint64 (get_uptime w) in
  if tm =? -1 then (-1, newuptime, None)
  else
    (* seconds *)
    let hours := CInt.to_sint32 (Z.quot tm 1000000000) in
    let seconds := Z.rem hours 60 in
    (* minutes *)
    let hours := Z.quot hours 60 in
    let minutes := Z.rem hours 60 in
    (* hours *)
    let hours := Z.quot hours 60 in
    let text := Fmt.fmt_0d 4 hours +:+ ":" +:+ Fmt.fmt_0d 2 minutes +:+ ":"
                +:+ Fmt.fmt_0d 2 seconds in
    (Z.of_nat (String.length text), Fmt.snprintf UPTIME_SIZE newuptime text,
     Some hours).

(** What ["%Y-%m-%d/%H:%M:%S  "] produces, piece by piece: the text of
    each conversion and each ordinary character. *)
Definition date_items (t : tm) : list string :=
  [ Fmt.fmt_d (tm_year t + 1900); "-"; Fmt.fmt_0d 2 (tm_mon t + 1); "-";
    Fmt.fmt_0d 2 (tm_mday t); "/"; Fmt.fmt_0d 2 (tm_hour t); ":";
    Fmt.fmt_0d 2 (tm_min t); ":"; Fmt.fmt_0d 2 (tm_sec t); " "; " " ].

(** Characters written over the start of what a buffer held. *)
Fixpoint overlay (stored old : string) : string :=
  match stored, old with
  | String c s, String _ o => String c (overlay s o)
  | String _ _, EmptyString => stored
  | EmptyString, _ => old
  end.

(** The C library stores a piece only while the piece and a terminator
    still fit; at the first piece that does not, it returns 0 and what
    was stored stays in the buffer (no terminator is written then). *)
Fixpoint store_items (max : nat) (buf stored : string) (items : list string)
  : Z * string :=
  match items with
  | [] => (Z.of_nat (String.length stored), stored)
  | item :: rest =>
      if (String.length stored + String.length item <? max)%nat
      then store_items max buf (stored +:+ item) rest
      else (0, overlay stored buf)
  end.

(** [strftime(buf, max, "%Y-%m-%d/%H:%M:%S  ", t)]: the length written,
    or 0 when the text and its terminator do not fit. *)
Definition strftime (max : nat) (buf : string) (t : tm) : Z * string :=
  store_items max buf EmptyString (date_items t).

Definition get_current_time_long (w : world) (buf : string) : Z * string :=
  match walltime w with
  | None => (-1, buf)
  | Some time_val => strftime LONG_TIME_SIZE buf time_val
  end.

(** The loop of [compute_key]: [n] iterations from index [i]. *)
Fixpoint hex_loop (n i : nat) (results : list Z) : string :=
  match n with
  | O => EmptyString
  | S k => Fmt.fmt_02x (nth i results 0) +:+ hex_loop k (S i) results
  end.

Definition compute_key (w : world) (key : option string) (key_len : nat)
  (seed : option string) : Z * option string :=
  match key, seed with
  | Some _, Some seed =>
      if ((SHA256.SHA256_DIGEST_LENGTH * 2 <? key_len)%nat || (key_len =? 0)%nat)
      then (-1, key)
      else
        let sha := SHA256.SHA256_Init in
        let time_ns := CInt.to_sint64 (get_uptime w) in
        let buf := Fmt.snprintf VERSION_SIZE EmptyString
                     (gbuildversion +:+ guuid +:+ Fmt.fmt_d time_ns) in
        let sha := SHA256.SHA256_Update sha (Fmt.bytes_of_string buf) in
        let sha := SHA256.SHA256_Update sha (Fmt.bytes_of_string seed) in
        let results := SHA256.SHA256_Final sha in
        (0, Some (hex_loop (key_len / 2) 0 results))
  | _, _ => (-1, key)
  end.

Definition generate_event_id (w : world) (seed1 seed2 : option string)
  (type : key_type) : option string :=
  match seed1 with
  | None => None
  | Some s1 =>
      let klen := match type with
                  | KEY_SHORT => Some SHORT_KEY_LENGTH
                  | KEY_LONG => Some LONG_KEY_LENGTH
                  | KEY_INVALID _ => None
                  end in
      match klen with
      | None => None
      | Some klen =>
          let key := Some EmptyString in
          let '(ret, key) :=
            match seed2 with
            | Some s2 => compute_key w key klen (Some (s1 +:+ s2))
            | None => compute_key w key klen seed1
            end in
          if ret <? 0 then None else key
      end
  end.

(** The [switch] of [reserve_log_folder]: the counter file [path] and
    the prefix [dir], nothing for the [default] branch. *)
Definition log_names (outdir : string) (mode : e_dir_mode)
  : option (string * string) :=
  match mode with
  | MODE_CRASH =>
      Some (outdir +:+ "/" +:+ CRASH_CURRENT_LOG, outdir +:+ "/" +:+ "crashlog")
  | MODE_STATS =>
      Some (outdir +:+ "/" +:+ STATS_CURRENT_LOG, outdir +:+ "/" +:+ "stats")
  | MODE_VMEVENT =>
      Some (outdir +:+ "/" +:+ VM_CURRENT_LOG, outdir +:+ "/" +:+ "vmevent")
  | MODE_INVALID _ => None
  end.

(** Both names fit their buffers, [path[512]] of [reserve_log_folder] and
    [dir[PATH_MAX]] of its caller, terminator included. *)
Definition names_fit (names : string * string) : bool :=
  (String.length (fst names) <? 512)%nat && (String.length (snd names) <? PATH_MAX)%nat.

(** [dir] and [current] are the out-parameters.  The two [sprintf] calls
    are unchecked: this is what the function does while both names fit
    their buffers ([names_fit]); with a longer output directory the
    C program writes past [path], and nothing is said about it here. *)
Definition reserve_log_folder (w : world) (mode : e_dir_mode) (dir : string)
  (current : Z) : Z * string * Z * world :=
  match Fs.get_sender_by_name conf "crashlog" with
  | None => (-1, dir, current, w)
  | Some crashlog =>
      let outdir := outdir crashlog in
      match log_names outdir mode with
      | None => (-1, dir, current, w)
      | Some (path, dir) =>
          (* Read current value in file *)
          let '(res, current) := Fs.file_read_int w path current in
          if res <? 0 then (res, dir, current, w)
          else
            let maxdirs := CInt.to_uint32 (Fmt.atoi (maxcrashdirs crashlog)) in
            (* Open file in read/write mode to update the new current *)
            let '(res, w) := Fs.file_update_int w path current maxdirs in
            if res <? 0 then (res, dir, current, w)
            else (0, dir, current, w)
      end
  end.

(** The macro [strcat_fmt]: the text is formatted into a 1024-byte
    buffer and that buffer is appended. *)
Definition strcat_fmt (buf formatted : string) : string :=
  buf +:+ Fmt.snprintf 1024 EmptyString formatted.

(** Lines 280-289: [int filesize].  The sum is computed in [size_t] and
    stored in an [int] after each statement. *)
Definition crashfile_size (event hashkey datetime uptime type : string)
  (data0 data1 data2 : option string) : Z :=
  let fmtsize := 128 in
  let strlen (s : string) := Z.of_nat (String.length s) in
  let to_int (sum : Z) := CInt.to_sint32 (CInt.to_uint64 sum) in
  let add (filesize : Z) (d : option string) :=
    match d with
    | Some v => to_int (filesize + strlen v)
    | None => filesize
    end in
  let filesize := to_int (fmtsize + strlen event + strlen hashkey + strlen guuid
                          + strlen datetime + strlen uptime + strlen gbuildversion
                          + strlen type) in
  let filesize := add filesize data0 in
  let filesize := add filesize data1 in
  let filesize := add filesize data2 in
  filesize.

(** Lines 297-311: the report as it is built in memory. *)
Definition crashfile_text (event hashkey datetime uptime type : string)
  (data0 data1 data2 : option string) : string :=
  let buf := EmptyString in
  let buf := strcat_fmt buf ("EVENT=" +:+ event +:+ nl) in
  let buf := strcat_fmt buf ("ID=" +:+ hashkey +:+ nl) in
  let buf := strcat_fmt buf ("DEVICEID=" +:+ guuid +:+ nl) in
  let buf := strcat_fmt buf ("DATE=" +:+ datetime +:+ nl) in
  let buf := strcat_fmt buf ("UPTIME=" +:+ uptime +:+ nl) in
  let buf := strcat_fmt buf ("BUILD=" +:+ gbuildversion +:+ nl) in
  let buf := strcat_fmt buf ("TYPE=" +:+ type +:+ nl) in
  let buf := match data0 with
             | Some d => strcat_fmt buf ("DATA0=" +:+ d +:+ nl)
             | None => buf
             end in
  let buf := match data1 with
             | Some d => strcat_fmt buf ("DATA1=" +:+ d +:+ nl)
             | None => buf
             end in
  let buf := match data2 with
             | Some d => strcat_fmt buf ("DATA2=" +:+ d +:+ nl)
             | None => buf
             end in
  buf +:+ "_END" +:+ nl.

Definition generate_crashfile (w : world) (dir event hashkey type : string)
  (data0 data1 data2 : option string) : world :=
  let datetime := EmptyString in
  let '(ret, datetime) := get_current_time_long w datetime in
  if ret <=? 0 then w
  else
    let uptime := EmptyString in
    let '(_, uptime, _) := get_uptime_string w uptime in
    let buf := crashfile_text event hashkey datetime uptime type data0 data1 data2 in
    let path := dir +:+ "/" +:+ "crashfile" in
    let '(_, w) := Fs.overwrite_file w path buf in
    w.

Definition generate_log_dir (w : world) (mode : e_dir_mode) (hashkey : string)
  : option string * world :=
  let '(ret, dir, current, w) := reserve_log_folder w mode EmptyString 0 in
  if negb (ret =? 0) then (None, w)
  else
    let path := dir +:+ Fmt.fmt_d (CInt.to_sint32 current) +:+ "_" +:+ hashkey in
    let '(ret, w) := Fs.mkdir w path in
    if ret =? -1 then
      let w := hist_raise_infoerror w "DIR CREATE" in
      (None, w)
    else (Some path, w).

Definition logged_boot_id_path (crashlog : sender_t) : string :=
  Fmt.snprintf PATH_MAX EmptyString (outdir crashlog +:+ "/" +:+ BOOTID_LOG).

Definition is_boot_id_changed (w : world) : Z * world :=
  let result := 1 in (* returns changed by default *)
  match Fs.get_sender_by_name conf "crashlog" with
  | None => (result, w)
  | Some crashlog =>
      let '(res, size, boot_id) := Fs.read_file w BOOTID_NODE in
      if (res =? -1) || (size =? 0) then (result, w)
      else
        let path := logged_boot_id_path crashlog in
        let persist (result : Z) : Z * world :=
          if negb (result =? 0)
          then (result, snd (Fs.overwrite_file w path (Fmt.cstr boot_id)))
          else (result, w) in
        if Fs.file_exists w path then
          let '(res, size, logged_boot_id) := Fs.read_file w path in
          if (res =? -1) || (size =? 0) then (result, w) (* goto out *)
          else
            let result := if Fmt.strcmp_eq logged_boot_id boot_id then 0 else result in
            persist result
        else persist result
  end.

End Probe.

(** ** Vocabulary of the statements *)

(** [n] reservations in a row: the result and the index of each. *)
Fixpoint reserve_many (conf : list sender_t) (n : nat) (w : world)
  (mode : e_dir_mode) : list (Z * Z) * world :=
  match n with
  | O => ([], w)
  | S k =>
      let '(res, _, current, w1) := reserve_log_folder conf w mode EmptyString 0 in
      let '(rest, w2) := reserve_many conf k w1 mode in
      ((res, current) :: rest, w2)
  end.

(** The salt that [compute_key] feeds to the hash before the seed. *)
Definition salt (VERSION_SIZE : nat) (gbuildversion guuid : string) (w : world)
  : string :=
  Fmt.snprintf VERSION_SIZE EmptyString
    (gbuildversion +:+ guuid +:+ Fmt.fmt_d (CInt.to_sint64 (get_uptime w))).

(** The configured number of slots, as [reserve_log_folder] computes it. *)
Definition maxdirs_of (crashlog : sender_t) : Z :=
  CInt.to_uint32 (Fmt.atoi (maxcrashdirs crashlog)).

(** The sub-directory name of a category. *)
Definition subdir_name (mode : e_dir_mode) : option string :=
  match mode with
  | MODE_CRASH => Some "crashlog"
  | MODE_STATS => Some "stats"
  | MODE_VMEVENT => Some "vmevent"
  | MODE_INVALID _ => None
  end.

(** A decimal numeral without padding: ["0"], or digits not starting
    with ["0"]. *)
Definition unpadded (s : string) : Prop :=
  s = "0" \/ exists c rest, s = String c rest /\ c <> "0"%char.

Definition all_lower_hex (s : string) : bool :=
  forallb Fmt.is_lower_hex (list_ascii_of_string s).

(** The report format in the words of the specification: the seven
    key=value lines in fixed order, a [DATAn] line for each supplied
    value, the sentinel. *)
Definition data_line (key : string) (value : option string) : list string :=
  match value with
  | Some v => [key +:+ v]
  | None => []
  end.

Definition report_lines (event hashkey deviceid date uptime build type : string)
  (data0 data1 data2 : option string) : list string :=
  [ "EVENT=" +:+ event; "ID=" +:+ hashkey; "DEVICEID=" +:+ deviceid;
    "DATE=" +:+ date; "UPTIME=" +:+ uptime; "BUILD=" +:+ build;
    "TYPE=" +:+ type ]
  ++ data_line "DATA0=" data0 ++ data_line "DATA1=" data1 ++ data_line "DATA2=" data2
  ++ [ "_END" ].

(** A text file made of the given lines, each closed by a line break. *)
Fixpoint unlines (ls : list string) : string :=
  match ls with
  | [] => EmptyString
  | l :: rest => l +:+ nl +:+ unlines rest
  end.

(** The lines of a text file, as a reader splitting at line breaks sees
    them. *)
Fixpoint split_lines (s : string) : list string :=
  match s with
  | EmptyString => []
  | String c s' =>
      if Ascii.eqb c "010" then EmptyString :: split_lines s'
      else match split_lines s' with
           | [] => [String c EmptyString]
           | l :: ls => String c l :: ls
           end
  end.

Definition no_line_break (s : string) : bool :=
  forallb (fun c => negb (Ascii.eqb c "010")) (list_ascii_of_string s).

(** A counter file that is malformed for [file_read_int]: no numeral, or
    one that is no [unsigned int]. *)
Definition malformed (data : string) : Prop :=
  match Fmt.scan_u (Fs.chomp data) with
  | Some n => 2 ^ 32 <= n
  | None => True
  end.

(** The line and its line break fit the 1024-byte buffer of [strcat_fmt]. *)
Definition line_fits (l : string) : bool := (String.length l <? 1023)%nat.

Fixpoint starts_with (p s : string) : bool :=
  match p, s with
  | EmptyString, _ => true
  | String a p', String b s' => Ascii.eqb a b && starts_with p' s'
  | String _ _, EmptyString => false
  end.

Definition has_key (key : string) (ls : list string) : bool :=
  existsb (starts_with (key +:+ "=")) ls.

(** ** Sample environments *)

Module Sample.

Definition conf : list sender_t :=
  [ {| name := "crashlog"; outdir := "/var/log/crashlog"; maxcrashdirs := "3" |} ].

Definition now : tm :=
  {| tm_sec := 7; tm_min := 5; tm_hour := 13; tm_mday := 30; tm_mon := 9;
     tm_year := 126 |}.

Definition up : timespec := {| tv_sec := 3725; tv_nsec := 250 |}.

(** A fresh output directory, both clocks working. *)
Definition fresh : world := World ∅ ∅ ∅ (Some up) (Some now).

(** The boot-relative clock cannot be read. *)
Definition no_boot_clock : world := World ∅ ∅ ∅ None (Some now).

(** The wall clock cannot be converted to local time. *)
Definition no_wall_clock : world := World ∅ ∅ ∅ (Some up) None.

(** A counter file that holds no numeral. *)
Definition bad_counter : world :=
  World {[ "/var/log/crashlog/currentcrashlog" := "x1" ]} ∅ ∅ (Some up) (Some now).

(** First start: the kernel exposes a boot id, nothing is recorded. *)
Definition first_boot : world :=
  World {[ BOOTID_NODE := "boot-A" ]} ∅ ∅ (Some up) (Some now).

(** The recorded boot id is the current one. *)
Definition same_boot : world :=
  World (<[ "/var/log/crashlog/currentbootid" := "boot-A" ]> {[ BOOTID_NODE := "boot-A" ]})
        ∅ ∅ (Some up) (Some now).

(** The recorded boot id is an older one. *)
Definition next_boot : world :=
  World (<[ "/var/log/crashlog/currentbootid" := "boot-A" ]> {[ BOOTID_NODE := "boot-B" ]})
        ∅ ∅ (Some up) (Some now).

(** The record file exists and is empty. *)
Definition empty_record : world :=
  World (<[ "/var/log/crashlog/currentbootid" := EmptyString ]> {[ BOOTID_NODE := "boot-A" ]})
        ∅ ∅ (Some up) (Some now).


(** Values that carry a line break: an event name on two lines, and a
    type whose second line reads like a data line. *)
Definition two_line_event : string := "A" +:+ nl +:+ "B".
Definition forged_type : string := "T" +:+ nl +:+ "DATA0=forged".

(** One possible history.c for the examples: the error event is noted in
    a history file of the output directory. *)
Definition history (w : world) (type : string) : world :=
  set_files w (<[ "/var/log/crashlog/history_event" := "ERROR " +:+ type ]> (files w)).

End Sample.

(** ** Further vocabulary *)

(** The value of a lowercase hexadecimal digit, and the bytes a string of
    such digits stands for, two digits a byte. *)
Definition hex_val (c : ascii) : Z :=
  let n := Z.of_N (N_of_ascii c) in
  if n <? 58 then n - 48 else n - 87.

Fixpoint unhex (s : string) : list Z :=
  match s with
  | String a (String b rest) => (16 * hex_val a + hex_val b) :: unhex rest
  | _ => []
  end.

(** The pieces of a text put together. *)
Definition join (items : list string) : string :=
  fold_right String.append EmptyString items.

(** A broken-down time of the years 1000 to 9999 with every field in the
    range [localtime] delivers. *)
Definition ordinary_time (t : tm) : Prop :=
  1000 <= tm_year t + 1900 < 10000 /\ 0 <= tm_mon t < 12 /\
  1 <= tm_mday t <= 31 /\ 0 <= tm_hour t < 24 /\ 0 <= tm_min t < 60 /\
  0 <= tm_sec t <= 60.

(** The characters of the values that go into a report. *)
Definition report_chars (gbuildversion guuid event hashkey datetime uptime type : string)
  (data0 data1 data2 : option string) : Z :=
  let strlen (s : string) := Z.of_nat (String.length s) in
  let strlen_opt (d : option string) :=
    match d with
    | Some v => strlen v
    | None => 0
    end in
  strlen event + strlen hashkey + strlen guuid + strlen datetime + strlen uptime
  + strlen gbuildversion + strlen type
  + strlen_opt data0 + strlen_opt data1 + strlen_opt data2.


(** What a statement may take for granted of [hist_raise_infoerror]: the
    path [p] is left as it is, as a file, as a directory and in what the
    storage layer makes of it. *)
Definition leaves_alone (hist : world -> string -> world) (p : string) : Prop :=
  forall (w : world) (type : string),
    files (hist w type) !! p = files w !! p /\
    (p ∈ dirs (hist w type) <-> p ∈ dirs w) /\
    (p ∈ io_fault (hist w type) <-> p ∈ io_fault w).

(** The unchecked [sprintf] calls of a reservation for [mode] stay within
    their buffers: whatever sender and names the reservation comes to,
    the names fit. *)
Definition reservation_fits (conf : list sender_t) (mode : e_dir_mode) : Prop :=
  forall crashlog names,
    Fs.get_sender_by_name conf "crashlog" = Some crashlog ->
    log_names (outdir crashlog) mode = Some names -> names_fit names = true.

(** The same machine after the kernel has published another boot id. *)
Definition reboot (w : world) (boot_id : string) : world :=
  set_files w (<[BOOTID_NODE := boot_id]> (files w)).

Module Scenario.

(** The directory of slot 0 for the identifier "abc" is already there. *)
Definition slot_taken : world :=
  World ∅ {[ "/var/log/crashlog/crashlog0_abc" ]} ∅ (Some Sample.up) (Some Sample.now).


(** The kernel node holds nothing. *)
Definition empty_node : world :=
  World {[ BOOTID_NODE := EmptyString ]} ∅ ∅ (Some Sample.up) (Some Sample.now).


End Scenario.

(** * Facts about the text conversions *)

Section StringFacts.

Lemma append_nil (t : string) : EmptyString +:+ t = t.
Proof. reflexivity. Qed.

Lemma append_cons (c : ascii) (s t : string) :
  String c s +:+ t = String c (s +:+ t).
Proof. reflexivity. Qed.

Lemma append_nil_r (s : string) : s +:+ EmptyString = s.
Proof. induction s as [|c s IH]; [reflexivity|]. now rewrite append_cons, IH. Qed.

Lemma append_assoc (a b c : string) : (a +:+ b) +:+ c = a +:+ (b +:+ c).
Proof.
  induction a as [|x a IH]; [reflexivity|].
  now rewrite !append_cons, IH.
Qed.

Lemma length_append (a b : string) :
  String.length (a +:+ b) = (String.length a + String.length b)%nat.
Proof.
  induction a as [|x a IH]; [reflexivity|].
  rewrite append_cons. simpl. now rewrite IH.
Qed.

Lemma take_all (n : nat) (s : string) :
  (String.length s <= n)%nat -> Fmt.take n s = s.
Proof.
  revert n. induction s as [|c s IH]; intros [|n] H; simpl in *; try reflexivity; try lia.
  f_equal. apply IH. lia.
Qed.

Lemma length_take (n : nat) (s : string) :
  (String.length (Fmt.take n s) <= String.length s)%nat.
Proof.
  revert n. induction s as [|c s IH]; intros [|n]; simpl; try lia.
  specialize (IH n). lia.
Qed.

Lemma list_ascii_append (a b : string) :
  list_ascii_of_string (a +:+ b) = list_ascii_of_string a ++ list_ascii_of_string b.
Proof.
  induction a as [|x a IH]; [reflexivity|].
  rewrite append_cons. simpl. now rewrite IH.
Qed.

End StringFacts.

Section HexFacts.

Lemma hex_digit_lower (d : Z) :
  0 <= d < 16 -> Fmt.is_lower_hex (Fmt.hex_digit d) = true.
Proof.
  intros H.
  assert (Hd : d = 0 \/ d = 1 \/ d = 2 \/ d = 3 \/ d = 4 \/ d = 5 \/ d = 6 \/ d = 7 \/
               d = 8 \/ d = 9 \/ d = 10 \/ d = 11 \/ d = 12 \/ d = 13 \/ d = 14 \/ d = 15)
    by lia.
  repeat (destruct Hd as [-> | Hd]; [reflexivity|]). now subst.
Qed.

Lemma fmt_02x_length (b : Z) : String.length (Fmt.fmt_02x b) = 2%nat.
Proof. reflexivity. Qed.

Lemma fmt_02x_lower (b : Z) :
  0 <= b < 256 -> all_lower_hex (Fmt.fmt_02x b) = true.
Proof.
  intros H. unfold all_lower_hex, Fmt.fmt_02x. simpl.
  rewrite !hex_digit_lower; [reflexivity| |].
  - apply Z.mod_pos_bound. lia.
  - split; [apply Z.div_pos; lia | apply Z.div_lt_upper_bound; lia].
Qed.

Lemma all_lower_hex_append (a b : string) :
  all_lower_hex (a +:+ b) = all_lower_hex a && all_lower_hex b.
Proof. unfold all_lower_hex. now rewrite list_ascii_append, forallb_app. Qed.

Lemma hex_loop_length (n i : nat) (results : list Z) :
  String.length (hex_loop n i results) = (2 * n)%nat.
Proof.
  revert i. induction n as [|n IH]; intros i; [reflexivity|].
  simpl hex_loop. rewrite length_append, fmt_02x_length, IH. lia.
Qed.

Lemma hex_loop_lower (n i : nat) (results : list Z) :
  (forall j, 0 <= nth j results 0 < 256) ->
  all_lower_hex (hex_loop n i results) = true.
Proof.
  intros Hb. revert i. induction n as [|n IH]; intros i; [reflexivity|].
  simpl hex_loop. rewrite all_lower_hex_append, fmt_02x_lower, IH by apply Hb.
  reflexivity.
Qed.

End HexFacts.

Section DigestFacts.

(** The model agrees with the published digests: "abc", the empty
    message, and a message of 56 bytes, which takes two blocks. *)
Example digest_abc :
  hex_loop 32 0 (SHA256.digest (Fmt.bytes_of_string "abc"))
    = "ba7816bf8f01cfea414140de5dae2223b00361a396177a9cb410ff61f20015ad".
Proof. vm_compute. reflexivity. Qed.

Example digest_empty :
  hex_loop 32 0 (SHA256.digest [])
    = "e3b0c44298fc1c149afbf4c8996fb92427ae41e4649b934ca495991b7852b855".
Proof. vm_compute. reflexivity. Qed.

Example digest_two_blocks :
  hex_loop 32 0 (SHA256.digest (repeat 97 56))
    = "b35439a4ac6f0948b6d6f9e3c6af0f5f590ce20f1bde7090ef7970686ec6738a".
Proof. vm_compute. reflexivity. Qed.

Example round_constants :
  nth 0 SHA256.K 0 = 0x428a2f98 /\ nth 63 SHA256.K 0 = 0xc67178f2 /\
  SHA256.ha SHA256.H0 = 0x6a09e667 /\ SHA256.hh SHA256.H0 = 0x5be0cd19.
Proof. vm_compute. auto. Qed.

Lemma be32_length (w : Z) : length (SHA256.be32 w) = 4%nat.
Proof. reflexivity. Qed.

Lemma be32_bytes (w : Z) : Forall (fun b => 0 <= b < 256) (SHA256.be32 w).
Proof. unfold SHA256.be32. repeat constructor; apply Z.mod_pos_bound; lia. Qed.

(** The digest has [SHA256_DIGEST_LENGTH] bytes. *)
Lemma digest_length (msg : list Z) :
  length (SHA256.digest msg) = SHA256.SHA256_DIGEST_LENGTH.
Proof. unfold SHA256.digest. cbv zeta. rewrite !length_app, !be32_length. reflexivity. Qed.

Lemma digest_bytes (msg : list Z) :
  Forall (fun b => 0 <= b < 256) (SHA256.digest msg).
Proof.
  unfold SHA256.digest. cbv zeta.
  repeat (apply Forall_app; split); apply be32_bytes.
Qed.

Lemma digest_nth (msg : list Z) (j : nat) : 0 <= nth j (SHA256.digest msg) 0 < 256.
Proof.
  destruct (Nat.lt_ge_cases j (length (SHA256.digest msg))) as [Hlt | Hge].
  - pose proof (digest_bytes msg) as Hall.
    rewrite List.Forall_forall in Hall. apply Hall, nth_In, Hlt.
  - rewrite nth_overflow by exact Hge. lia.
Qed.

End DigestFacts.

Section DecimalFacts.

Lemma digits_chomp (d : Decimal.uint) :
  Fs.chomp (NilEmpty.string_of_uint d) = NilEmpty.string_of_uint d.
Proof.
  induction d as [|d IH|d IH|d IH|d IH|d IH|d IH|d IH|d IH|d IH|d IH];
    [reflexivity | ..]; simpl; rewrite IH;
    destruct (NilEmpty.string_of_uint d); reflexivity.
Qed.

Lemma fmt_d_pos (p : positive) :
  Fmt.fmt_d (Z.pos p) = NilEmpty.string_of_uint (Pos.to_uint p).
Proof.
  unfold Fmt.fmt_d. simpl. pose proof (Unsigned.to_uint_nonnil p) as H.
  destruct (Pos.to_uint p); [contradiction | reflexivity ..].
Qed.

(** The counter file format is stable: what ["%u"] writes, the read
    path recovers. *)
Lemma scan_fmt_u (n : Z) : 0 <= n -> Fmt.scan_u (Fs.chomp (Fmt.fmt_u n)) = Some n.
Proof.
  intros Hn. unfold Fmt.fmt_u. destruct n as [|p|p]; [reflexivity | | lia].
  rewrite fmt_d_pos, digits_chomp. unfold Fmt.scan_u.
  pose proof (Unsigned.to_uint_nonnil p) as Hnil.
  pose proof (NilZero.usu (Pos.to_uint p) Hnil) as Hu.
  replace (NilZero.string_of_uint (Pos.to_uint p))
    with (NilEmpty.string_of_uint (Pos.to_uint p)) in Hu
    by (destruct (Pos.to_uint p); [contradiction | reflexivity ..]).
  rewrite Hu. unfold Z.of_uint. now rewrite DecimalPos.Unsigned.of_to.
Qed.

Lemma to_uint_no_leading_zero (p : positive) (u : Decimal.uint) :
  Pos.to_uint p <> Decimal.D0 u.
Proof.
  intros H.
  assert (Hn : Decimal.unorm (Pos.to_uint p) = Pos.to_uint p)
    by (rewrite <- (DecimalPos.Unsigned.to_of (Pos.to_uint p)),
          DecimalPos.Unsigned.of_to; reflexivity).
  rewrite H, unorm_D0 in Hn. unfold Decimal.unorm in Hn.
  pose proof (nzhead_nonzero u) as Hz.
  destruct (Decimal.nzhead u) eqn:E; try discriminate Hn.
  - injection Hn as <-. now apply (Unsigned.to_uint_nonzero p).
  - now apply (Hz u0).
Qed.

(** ["%d"] of a non-negative value is an unpadded decimal numeral. *)
Lemma fmt_d_unpadded (n : Z) : 0 <= n -> unpadded (Fmt.fmt_d n).
Proof.
  intros Hn. destruct n as [|p|p]; [now left | | lia].
  right. rewrite fmt_d_pos.
  pose proof (to_uint_no_leading_zero p) as Hz.
  pose proof (Unsigned.to_uint_nonnil p) as Hnil.
  destruct (Pos.to_uint p) as [|u|u|u|u|u|u|u|u|u|u]; simpl;
    [contradiction | now contradiction (Hz u) | ..];
    (eexists; eexists; split; [reflexivity | discriminate]).
Qed.

End DecimalFacts.

(** * The event identifier *)

Section EventId.

Variables (VERSION_SIZE : nat) (gbuildversion guuid : string).

Local Abbreviation compute_key' := (compute_key VERSION_SIZE gbuildversion guuid).
Local Abbreviation generate_event_id' := (generate_event_id VERSION_SIZE gbuildversion guuid).

Local Abbreviation salt' := (salt VERSION_SIZE gbuildversion guuid).

Lemma compute_key_ok (w : world) (buf : string) (key_len : nat) (seed : string) :
  key_len <> 0%nat -> (key_len <= 64)%nat ->
  compute_key' w (Some buf) key_len (Some seed) =
    (0, Some (hex_loop (key_len / 2) 0
                (SHA256.digest (Fmt.bytes_of_string (salt' w) ++ Fmt.bytes_of_string seed)))).
Proof.
  intros Hnz Hle. unfold compute_key.
  replace (SHA256.SHA256_DIGEST_LENGTH * 2 <? key_len)%nat with false
    by (symmetry; apply Nat.ltb_ge; exact Hle).
  replace (key_len =? 0)%nat with false
    by (symmetry; apply Nat.eqb_neq; exact Hnz).
  reflexivity.
Qed.

(** What [generate_event_id] returns for a non-null first seed and a
    valid variant. *)
Lemma generate_event_id_some (w : world) (s1 : string) (seed2 : option string)
  (type : key_type) (klen : nat) :
  (type = KEY_SHORT /\ klen = SHORT_KEY_LENGTH \/ type = KEY_LONG /\ klen = LONG_KEY_LENGTH) ->
  generate_event_id' w (Some s1) seed2 type =
    Some (hex_loop (klen / 2) 0
            (SHA256.digest
               (Fmt.bytes_of_string (salt' w) ++
                Fmt.bytes_of_string (match seed2 with Some s2 => s1 +:+ s2 | None => s1 end)))).
Proof.
  intros [[-> ->] | [-> ->]]; unfold generate_event_id;
    destruct seed2 as [s2|]; rewrite compute_key_ok by (cbv; lia); reflexivity.
Qed.

(** C2: for every non-null [seed1], [generate_event_id] returns a string
    of exactly 20 characters for [KEY_SHORT] and of exactly 32 characters
    for [KEY_LONG], and every character of it is a lowercase hexadecimal
    digit. *)
Theorem C2_event_id_length_and_alphabet (w : world) (seed1 : string)
  (seed2 : option string) :
  (exists key, generate_event_id' w (Some seed1) seed2 KEY_SHORT = Some key /\
               String.length key = 20%nat /\ all_lower_hex key = true) /\
  (exists key, generate_event_id' w (Some seed1) seed2 KEY_LONG = Some key /\
               String.length key = 32%nat /\ all_lower_hex key = true).
Proof.
  split; eexists; (split; [apply generate_event_id_some; auto|]);
    (split; [rewrite hex_loop_length; reflexivity | apply hex_loop_lower, digest_nth]).
Qed.

End EventId.

(** C6, as the code has it: [generate_event_id] fails when [seed1] is
    null, whatever the other arguments; an empty [seed1] is not rejected,
    it yields a hash key for either variant. *)
Theorem C6_null_seed_fails_empty_seed_accepted (VERSION_SIZE : nat)
  (gbuildversion guuid : string) (w : world) (seed2 : option string)
  (type : key_type) :
  generate_event_id VERSION_SIZE gbuildversion guuid w None seed2 type = None /\
  (exists key, generate_event_id VERSION_SIZE gbuildversion guuid w
                 (Some EmptyString) seed2 KEY_SHORT = Some key) /\
  (exists key, generate_event_id VERSION_SIZE gbuildversion guuid w
                 (Some EmptyString) seed2 KEY_LONG = Some key).
Proof.
  split; [reflexivity|].
  split; eexists; apply generate_event_id_some; auto.
Qed.

(** C6, the claim as stated fails: the empty string as [seed1] gives a
    hash key, not the error value. *)
Lemma C6_empty_seed_counterexample :
  generate_event_id 256 "v1" "uuid" Sample.fresh (Some EmptyString) None KEY_SHORT
    = Some "cb4140d3af619dc13fab" /\
  generate_event_id 256 "v1" "uuid" Sample.fresh (Some EmptyString) None KEY_SHORT
    <> None.
Proof. split; [vm_compute; reflexivity | vm_compute; discriminate]. Qed.

(** With an unreadable boot clock the salt carries the error value -1 of
    [get_uptime] as if it were a time. *)
Lemma salt_clock_failure (VERSION_SIZE : nat) (gbuildversion guuid : string)
  (w : world) :
  boottime w = None ->
  salt VERSION_SIZE gbuildversion guuid w =
    Fmt.snprintf VERSION_SIZE EmptyString (gbuildversion +:+ guuid +:+ "-1").
Proof. intros H. unfold salt, get_uptime. rewrite H. reflexivity. Qed.

(** Whatever the seeds, an unreadable boot clock does not make
    [generate_event_id] fail: the key is hashed from that salt. *)
Lemma generate_event_id_clock_failure (VERSION_SIZE : nat)
  (gbuildversion guuid : string) (w : world) (seed1 : string) (seed2 : option string) :
  boottime w = None ->
  generate_event_id VERSION_SIZE gbuildversion guuid w (Some seed1) seed2 KEY_SHORT =
    Some (hex_loop 10 0
            (SHA256.digest
               (Fmt.bytes_of_string
                  (Fmt.snprintf VERSION_SIZE EmptyString (gbuildversion +:+ guuid +:+ "-1"))
                ++ Fmt.bytes_of_string
                     (match seed2 with Some s2 => seed1 +:+ s2 | None => seed1 end)))).
Proof.
  intros H.
  rewrite (generate_event_id_some VERSION_SIZE gbuildversion guuid w seed1 seed2
             KEY_SHORT SHORT_KEY_LENGTH) by auto.
  now rewrite salt_clock_failure by exact H.
Qed.

(** C7, the code at an unreadable boot clock: [generate_event_id] does not
    fail, it returns the key hashed from the salt "v1uuid-1". *)
Theorem C7_unreadable_clock_yields_key :
  boottime Sample.no_boot_clock = None /\
  salt 256 "v1" "uuid" Sample.no_boot_clock = "v1uuid-1" /\
  generate_event_id 256 "v1" "uuid" Sample.no_boot_clock (Some "seed") None KEY_SHORT
    = Some "460247d19102beda60d8".
Proof. repeat split; vm_compute; reflexivity. Qed.

(** * The crash report *)

Section CrashReport.

Variables (UPTIME_SIZE LONG_TIME_SIZE : nat) (gbuildversion guuid : string).

Local Abbreviation get_uptime_string' := (get_uptime_string UPTIME_SIZE).
Local Abbreviation get_current_time_long' := (get_current_time_long LONG_TIME_SIZE).
Local Abbreviation crashfile_text' := (crashfile_text gbuildversion guuid).
Local Abbreviation generate_crashfile' :=
  (generate_crashfile UPTIME_SIZE LONG_TIME_SIZE gbuildversion guuid).

(** The sibling of [compute_key]: here the error value of [get_uptime]
    is checked, and the buffer is left alone. *)
Lemma get_uptime_string_clock_failure (w : world) (buf : string) :
  boottime w = None -> get_uptime_string' w buf = (-1, buf, None).
Proof. intros H. unfold get_uptime_string, get_uptime. rewrite H. reflexivity. Qed.

Lemma strcat_fmt_line (buf l : string) :
  line_fits l = true -> strcat_fmt buf (l +:+ nl) = buf +:+ l +:+ nl.
Proof.
  unfold line_fits, strcat_fmt, Fmt.snprintf. intros H.
  apply Nat.ltb_lt in H. rewrite take_all; [reflexivity|].
  rewrite length_append. simpl. lia.
Qed.

(** When every line fits the formatting buffer the text built in memory
    is the report of the specification. *)
Lemma crashfile_text_unlines (event hashkey datetime uptime type : string)
  (data0 data1 data2 : option string) :
  forallb line_fits
    (report_lines event hashkey guuid datetime uptime gbuildversion type
       data0 data1 data2) = true ->
  crashfile_text' event hashkey datetime uptime type data0 data1 data2 =
    unlines (report_lines event hashkey guuid datetime uptime gbuildversion type
               data0 data1 data2).
Proof.
  unfold report_lines. rewrite !forallb_app. simpl forallb.
  rewrite !andb_true_iff.
  intros [(He & Hi & Hd & Hdt & Hu & Hb & Ht & _) (H0 & H1 & H2 & _)].
  unfold crashfile_text.
  destruct data0 as [v0|], data1 as [v1|], data2 as [v2|];
    cbn [data_line forallb] in H0, H1, H2;
    try apply andb_true_iff, proj1 in H0;
    try apply andb_true_iff, proj1 in H1;
    try apply andb_true_iff, proj1 in H2;
    cbv beta iota zeta;
    rewrite <- !(append_assoc _ _ nl);
    repeat (rewrite strcat_fmt_line by assumption);
    cbn [data_line app unlines];
    rewrite !append_assoc, ?append_nil, ?append_nil_r; reflexivity.
Qed.

Lemma length_strcat_fmt (buf formatted : string) :
  (String.length (strcat_fmt buf formatted)
   <= String.length buf + String.length formatted)%nat.
Proof.
  unfold strcat_fmt, Fmt.snprintf. rewrite length_append.
  pose proof (length_take 1023 formatted). lia.
Qed.

Lemma split_lines_line (l rest : string) :
  no_line_break l = true -> split_lines (l +:+ nl +:+ rest) = l :: split_lines rest.
Proof.
  unfold no_line_break. induction l as [|c l IH]; simpl; intros H.
  - reflexivity.
  - apply andb_true_iff in H as [Hc Hl]. apply negb_true_iff in Hc.
    now rewrite Hc, (IH Hl).
Qed.

(** Lines without a line break inside are what a reader gets back. *)
Lemma split_lines_unlines (ls : list string) :
  forallb no_line_break ls = true -> split_lines (unlines ls) = ls.
Proof.
  induction ls as [|l ls IH]; simpl; intros H; [reflexivity|].
  apply andb_true_iff in H as [Hl Hls].
  now rewrite split_lines_line, IH.
Qed.

Lemma has_key_data (event hashkey deviceid date uptime build type : string)
  (data0 data1 data2 : option string) :
  let lines := report_lines event hashkey deviceid date uptime build type
                 data0 data1 data2 in
  (has_key "DATA0" lines = true <-> data0 <> None) /\
  (has_key "DATA1" lines = true <-> data1 <> None) /\
  (has_key "DATA2" lines = true <-> data2 <> None).
Proof.
  destruct data0, data1, data2; vm_compute; repeat split; intros H;
    first [reflexivity | discriminate | exfalso; apply H; reflexivity].
Qed.

(** C5, as the code has it: for every successful call in which no
    value written carries a line break and each line with its line break
    fits the 1024-byte formatting buffer, the lines of the file are
    EVENT=, ID=, DEVICEID=, DATE=, UPTIME=, BUILD=, TYPE= in that order,
    then a DATAn= line exactly for the data arguments that are not null,
    then the line _END, each closed by a line break; with no data
    argument that is 7 key=value lines and _END. *)
Theorem C5_report_lines_in_order (w : world) (dir event hashkey type : string)
  (data0 data1 data2 : option string) :
  let date := snd (get_current_time_long' w EmptyString) in
  let uptime := snd (fst (get_uptime_string' w EmptyString)) in
  let lines := report_lines event hashkey guuid date uptime gbuildversion type
                 data0 data1 data2 in
  let path := dir +:+ "/" +:+ "crashfile" in
  0 < fst (get_current_time_long' w EmptyString) ->
  fst (Fs.overwrite_file w path
         (crashfile_text' event hashkey date uptime type data0 data1 data2)) = 0 ->
  forallb line_fits lines = true ->
  forallb no_line_break lines = true ->
  exists text,
    files (generate_crashfile' w dir event hashkey type data0 data1 data2) !! path
      = Some text /\
    text = unlines (split_lines text) /\
    split_lines text =
      [ "EVENT=" +:+ event; "ID=" +:+ hashkey; "DEVICEID=" +:+ guuid;
        "DATE=" +:+ date; "UPTIME=" +:+ uptime; "BUILD=" +:+ gbuildversion;
        "TYPE=" +:+ type ]
      ++ data_line "DATA0=" data0 ++ data_line "DATA1=" data1
      ++ data_line "DATA2=" data2 ++ [ "_END" ] /\
    (has_key "DATA0" (split_lines text) = true <-> data0 <> None) /\
    (has_key "DATA1" (split_lines text) = true <-> data1 <> None) /\
    (has_key "DATA2" (split_lines text) = true <-> data2 <> None) /\
    List.last (split_lines text) EmptyString = "_END" /\
    (data0 = None -> data1 = None -> data2 = None ->
     length (split_lines text) = 8%nat).
Proof.
  intros date uptime lines path Htime Hwrite Hfit Hplain.
  destruct (has_key_data event hashkey guuid date uptime gbuildversion type
              data0 data1 data2) as (K0 & K1 & K2).
  exists (unlines lines).
  rewrite (split_lines_unlines lines Hplain).
  split; [|split; [reflexivity|split; [reflexivity|
          split; [exact K0|split; [exact K1|split; [exact K2|split]]]]]].
  - unfold generate_crashfile. subst date uptime.
    destruct (get_current_time_long' w EmptyString) as [ret dt].
    destruct (get_uptime_string' w EmptyString) as [[r up] h].
    simpl in *. replace (ret <=? 0) with false by (symmetry; apply Z.leb_gt; exact Htime).
    rewrite crashfile_text_unlines in * by exact Hfit.
    fold path. unfold Fs.overwrite_file in *.
    destruct (bool_decide (path ∈ io_fault w) || bool_decide (path ∈ dirs w));
      [discriminate Hwrite|].
    simpl. apply lookup_insert_eq.
  - subst lines. unfold report_lines. rewrite !app_assoc. apply List.last_last.
  - intros -> -> ->. reflexivity.
Qed.

(** C9: if the wall-clock timestamp cannot be obtained the writer
    returns before composing or writing anything; the store is exactly
    what it was. *)
Theorem C9_no_timestamp_nothing_written (w : world)
  (dir event hashkey type : string) (data0 data1 data2 : option string) :
  fst (get_current_time_long' w EmptyString) <= 0 ->
  generate_crashfile' w dir event hashkey type data0 data1 data2 = w.
Proof.
  intros H. unfold generate_crashfile.
  destruct (get_current_time_long' w EmptyString) as [ret dt]. simpl in H.
  apply Z.leb_le in H. now rewrite H.
Qed.

(** C10: a failure of the boot-relative clock does not abort the report.
    The result of [get_uptime_string] is ignored, the uptime buffer stays
    the empty string, and the report is written in full with the line
    UPTIME= carrying an empty value. *)
Theorem C10_uptime_failure_is_tolerated (w : world)
  (dir event hashkey type : string) (data0 data1 data2 : option string) :
  let date := snd (get_current_time_long' w EmptyString) in
  let text := crashfile_text' event hashkey date EmptyString type data0 data1 data2 in
  let path := dir +:+ "/" +:+ "crashfile" in
  boottime w = None ->
  0 < fst (get_current_time_long' w EmptyString) ->
  get_uptime_string' w EmptyString = (-1, EmptyString, None) /\
  generate_crashfile' w dir event hashkey type data0 data1 data2
    = snd (Fs.overwrite_file w path text) /\
  (fst (Fs.overwrite_file w path text) = 0 ->
   files (generate_crashfile' w dir event hashkey type data0 data1 data2) !! path
     = Some text) /\
  (exists before after, text = before +:+ "UPTIME=" +:+ nl +:+ after) /\
  (forallb line_fits
     (report_lines event hashkey guuid date EmptyString gbuildversion type
        data0 data1 data2) = true ->
   text = unlines (report_lines event hashkey guuid date EmptyString gbuildversion
                     type data0 data1 data2)).
Proof.
  intros date text path Hclock Htime.
  assert (Hgen : generate_crashfile' w dir event hashkey type data0 data1 data2
                 = snd (Fs.overwrite_file w path text)).
  { unfold generate_crashfile. subst text date.
    rewrite (get_uptime_string_clock_failure w EmptyString Hclock).
    destruct (get_current_time_long' w EmptyString) as [ret dt]. simpl in *.
    replace (ret <=? 0) with false by (symmetry; apply Z.leb_gt; exact Htime).
    fold path. now destruct (Fs.overwrite_file w path _). }
  split; [apply get_uptime_string_clock_failure, Hclock|].
  split; [exact Hgen|].
  split; [|split].
  - intros Hw. rewrite Hgen. unfold Fs.overwrite_file in *.
    destruct (bool_decide (path ∈ io_fault w) || bool_decide (path ∈ dirs w));
      [discriminate Hw|].
    simpl. apply lookup_insert_eq.
  - subst text. unfold crashfile_text.
    set (before := strcat_fmt (strcat_fmt (strcat_fmt (strcat_fmt EmptyString _) _) _) _).
    exists before.
    destruct data0, data1, data2; eexists; cbv beta iota zeta; unfold strcat_fmt;
      change (Fmt.snprintf 1024 EmptyString ("UPTIME=" +:+ EmptyString +:+ nl))
        with ("UPTIME=" +:+ nl);
      rewrite !append_assoc; reflexivity.
  - apply crashfile_text_unlines.
Qed.

End CrashReport.

(** * Log directory reservation *)

Section StoreFacts.

Lemma overwrite_file_ok (w : world) (p v : string) :
  p ∉ io_fault w -> p ∉ dirs w ->
  Fs.overwrite_file w p v = (0, set_files w (<[p := v]> (files w))).
Proof.
  intros Hf Hd. unfold Fs.overwrite_file.
  now rewrite !bool_decide_eq_false_2 by assumption.
Qed.

Lemma file_read_int_range (w : world) (p : string) (res c : Z) :
  Fs.file_read_int w p 0 = (res, c) -> 0 <= c < 2 ^ 32.
Proof.
  unfold Fs.file_read_int, Fmt.scan_u.
  destruct (bool_decide (p ∈ io_fault w) || bool_decide (p ∈ dirs w));
    [intros [= _ <-]; lia|].
  destruct (files w !! p) as [data|]; [|intros [= _ <-]; lia].
  destruct (NilZero.uint_of_string (Fs.chomp data)) as [d|]; [|intros [= _ <-]; lia].
  destruct (Z.ltb_spec (Z.of_uint d) (2 ^ 32)) as [Hlt|Hge]; intros [= _ <-]; [|lia].
  split; [unfold Z.of_uint; apply N2Z.is_nonneg | exact Hlt].
Qed.

Lemma file_read_int_any_current (w : world) (p : string) (c0 c1 c : Z) :
  Fs.file_read_int w p c0 = (0, c) -> Fs.file_read_int w p c1 = (0, c).
Proof.
  unfold Fs.file_read_int.
  destruct (bool_decide (p ∈ io_fault w) || bool_decide (p ∈ dirs w));
    [discriminate | exact id].
Qed.

(** Format stability: the value persisted by [file_update_int] is the
    value the next [file_read_int] delivers. *)
Lemma file_read_int_written (w : world) (p : string) (n c0 : Z) :
  p ∉ io_fault w -> p ∉ dirs w -> 0 <= n < 2 ^ 32 ->
  Fs.file_read_int (set_files w (<[p := Fmt.fmt_u n]> (files w))) p c0 = (0, n).
Proof.
  intros Hf Hd Hn. unfold Fs.file_read_int. simpl.
  rewrite !bool_decide_eq_false_2 by assumption. simpl.
  rewrite lookup_insert_eq, scan_fmt_u by lia.
  now replace (n <? 2 ^ 32) with true by (symmetry; apply Z.ltb_lt; lia).
Qed.

(** Reading a counter depends on that file alone. *)
Lemma file_read_int_ext (w w' : world) (p : string) (current : Z) :
  (p ∈ io_fault w' <-> p ∈ io_fault w) -> (p ∈ dirs w' <-> p ∈ dirs w) ->
  files w' !! p = files w !! p ->
  Fs.file_read_int w' p current = Fs.file_read_int w p current.
Proof.
  intros Hf Hd Hp. unfold Fs.file_read_int. rewrite Hp.
  now rewrite (bool_decide_ext _ _ Hf), (bool_decide_ext _ _ Hd).
Qed.

Lemma maxdirs_range (crashlog : sender_t) : 0 <= maxdirs_of crashlog < 2 ^ 32.
Proof. apply Z.mod_pos_bound. lia. Qed.

Lemma log_names_subdir (o : string) (mode : e_dir_mode) (counter dir : string) :
  log_names o mode = Some (counter, dir) ->
  exists subdir, subdir_name mode = Some subdir /\ dir = o +:+ "/" +:+ subdir.
Proof.
  destruct mode; simpl; intros [= <- <-]; eexists; (split; [reflexivity|reflexivity]).
Qed.

(** No directory name built on the prefix [dir] is the counter file. *)
Lemma log_names_apart (o : string) (mode : e_dir_mode) (counter dir rest : string) :
  log_names o mode = Some (counter, dir) -> dir +:+ rest <> counter.
Proof.
  destruct mode; simpl; intros [= <- <-] H; rewrite append_assoc in H;
    apply (inj (String.app o)) in H; vm_compute in H; discriminate H.
Qed.

End StoreFacts.

Section Reservation.

Variable conf : list sender_t.
Variables (crashlog : sender_t) (mode : e_dir_mode) (counter dir : string).
Hypothesis Hsender : Fs.get_sender_by_name conf "crashlog" = Some crashlog.
Hypothesis Hnames : log_names (outdir crashlog) mode = Some (counter, dir).
Hypothesis Hmax : maxdirs_of crashlog <> 0.

Local Abbreviation next c := (CInt.to_uint32 (c + 1) mod maxdirs_of crashlog).

(** One reservation on a working store: the index handed out is the
    counter read, the counter persisted is its successor. *)
Lemma reserve_step (w : world) (d0 : string) (c0 c : Z) :
  counter ∉ io_fault w -> counter ∉ dirs w ->
  Fs.file_read_int w counter c0 = (0, c) ->
  reserve_log_folder conf w mode d0 c0 =
    (0, dir, c, set_files w (<[counter := Fmt.fmt_u (next c)]> (files w))).
Proof.
  intros Hf Hd Hread. unfold reserve_log_folder.
  rewrite Hsender, Hnames, Hread. simpl.
  unfold Fs.file_update_int. fold (maxdirs_of crashlog).
  replace (maxdirs_of crashlog =? 0) with false by (symmetry; apply Z.eqb_neq, Hmax).
  now rewrite overwrite_file_ok by assumption.
Qed.

Lemma next_range (c : Z) : 0 <= next c < maxdirs_of crashlog.
Proof. pose proof (maxdirs_range crashlog). apply Z.mod_pos_bound. lia. Qed.

Lemma next_succ (c : Z) :
  0 <= c < maxdirs_of crashlog -> next c = (c + 1) mod maxdirs_of crashlog.
Proof.
  intros Hc. pose proof (maxdirs_range crashlog).
  unfold CInt.to_uint32, CInt.to_uint. now rewrite (Z.mod_small (c + 1)) by lia.
Qed.

Lemma reserve_step_counter (w : world) (c c0 : Z) :
  counter ∉ io_fault w -> counter ∉ dirs w ->
  Fs.file_read_int
    (set_files w (<[counter := Fmt.fmt_u (next c)]> (files w))) counter c0
    = (0, next c).
Proof.
  intros Hf Hd. pose proof (next_range c). pose proof (maxdirs_range crashlog).
  apply file_read_int_written; [assumption .. | lia].
Qed.

(** [n] reservations from a counter at [c]: the ring order. *)
Lemma reserve_many_ring (n : nat) (w : world) (c : Z) :
  counter ∉ io_fault w -> counter ∉ dirs w ->
  0 <= c < maxdirs_of crashlog ->
  Fs.file_read_int w counter 0 = (0, c) ->
  fst (reserve_many conf n w mode) =
    map (fun i => (0, (c + Z.of_nat i) mod maxdirs_of crashlog)) (seq 0 n).
Proof.
  revert w c. induction n as [|n IH]; intros w c Hf Hd Hc Hread; [reflexivity|].
  simpl reserve_many. rewrite (reserve_step w EmptyString 0 c Hf Hd Hread).
  specialize (IH (set_files w (<[counter := Fmt.fmt_u (next c)]> (files w)))
                (next c) Hf Hd (next_range c) (reserve_step_counter w c 0 Hf Hd)).
  destruct (reserve_many conf n _ mode) as [rest w2]. simpl in IH. simpl.
  rewrite Z.add_0_r, Z.mod_small by lia. f_equal.
  rewrite IH, <- seq_shift, map_map. apply map_ext. intros i.
  rewrite next_succ by exact Hc.
  rewrite Z.add_mod_idemp_l by exact Hmax. do 2 f_equal. lia.
Qed.

End Reservation.

(** C1: with [maxSlots] configured, on a working store and with names
    that fit the buffers of [reserve_log_folder], reservations in a row
    from a fresh counter hand out the indexes 0, 1, ..., maxSlots-1 in
    order and then 0 again, the i-th one handing out i mod maxSlots; each
    reservation, whatever its out-parameters held, leaves a persisted
    counter in [0, maxSlots), the successor modulo maxSlots of the one it
    found. *)
Theorem C1_counter_is_a_ring (conf : list sender_t) (w : world)
  (mode : e_dir_mode) (crashlog : sender_t) (counter dir : string) (maxSlots : Z) :
  Fs.get_sender_by_name conf "crashlog" = Some crashlog ->
  log_names (outdir crashlog) mode = Some (counter, dir) ->
  names_fit (counter, dir) = true ->
  maxdirs_of crashlog = maxSlots -> 0 < maxSlots ->
  counter ∉ io_fault w -> counter ∉ dirs w ->
  (Fs.file_read_int w counter 0 = (0, 0) ->
   fst (reserve_many conf (S (Z.to_nat maxSlots)) w mode) =
     map (fun i => (0, Z.of_nat i)) (seq 0 (Z.to_nat maxSlots)) ++ [(0, 0)] /\
   forall n, fst (reserve_many conf n w mode) =
             map (fun i => (0, Z.of_nat i mod maxSlots)) (seq 0 n)) /\
  (forall c d0 c0, Fs.file_read_int w counter c0 = (0, c) ->
   exists w' c',
     reserve_log_folder conf w mode d0 c0 = (0, dir, c, w') /\
     Fs.file_read_int w' counter c0 = (0, c') /\
     0 <= c' < maxSlots /\
     (0 <= c < maxSlots -> c' = (c + 1) mod maxSlots)).
Proof.
  intros Hsender Hnames _ Hmax Hpos Hf Hd.
  assert (Hnz : maxdirs_of crashlog <> 0) by lia.
  split.
  - intros Hfresh.
    assert (Hall : forall n, fst (reserve_many conf n w mode) =
                     map (fun i => (0, Z.of_nat i mod maxSlots)) (seq 0 n)).
    { intros n.
      rewrite (reserve_many_ring conf crashlog mode counter dir Hsender Hnames Hnz
                 n w 0 Hf Hd ltac:(lia) Hfresh).
      rewrite Hmax. apply map_ext. intros i. now rewrite Z.add_0_l. }
    split; [|exact Hall].
    rewrite Hall, seq_S, map_app. simpl. f_equal.
    + apply map_ext_in. intros i Hi. apply in_seq in Hi.
      rewrite Z.mod_small by lia. reflexivity.
    + rewrite Z2Nat.id by lia. now rewrite Z.mod_same by lia.
  - intros c d0 c0 Hread.
    exists (set_files w (<[counter := Fmt.fmt_u
                             (CInt.to_uint32 (c + 1) mod maxdirs_of crashlog)]> (files w))),
           (CInt.to_uint32 (c + 1) mod maxdirs_of crashlog).
    split; [apply (reserve_step conf crashlog mode counter dir); assumption|].
    split; [apply reserve_step_counter; assumption|].
    rewrite <- Hmax. split; [apply next_range | apply next_succ]; exact Hnz.
Qed.

Lemma C1_counter_is_a_ring_witness :
  fst (reserve_many Sample.conf 4 Sample.fresh MODE_CRASH) =
    [(0, 0); (0, 1); (0, 2); (0, 0)].
Proof.
  apply (C1_counter_is_a_ring Sample.conf Sample.fresh MODE_CRASH
           {| name := "crashlog"; outdir := "/var/log/crashlog"; maxcrashdirs := "3" |}
           "/var/log/crashlog/currentcrashlog" "/var/log/crashlog/crashlog" 3);
    try (vm_compute; reflexivity); simpl; set_solver.
Defined.

(** A reservation that succeeds went through every step of
    [reserve_log_folder]. *)
Lemma reserve_log_folder_success (conf : list sender_t) (w w' : world)
  (mode : e_dir_mode) (d0 dir : string) (c0 current : Z) :
  reserve_log_folder conf w mode d0 c0 = (0, dir, current, w') ->
  exists crashlog counter,
    Fs.get_sender_by_name conf "crashlog" = Some crashlog /\
    log_names (outdir crashlog) mode = Some (counter, dir) /\
    snd (Fs.file_read_int w counter c0) = current.
Proof.
  unfold reserve_log_folder.
  destruct (Fs.get_sender_by_name conf "crashlog") as [crashlog|]; [|discriminate].
  destruct (log_names (outdir crashlog) mode) as [[counter dir']|] eqn:Hn; [|discriminate].
  destruct (Fs.file_read_int w counter c0) as [res cur] eqn:Hr.
  destruct (res <? 0) eqn:Hres.
  - intros [= -> _ _ _]. discriminate Hres.
  - destruct (Fs.file_update_int w counter cur _) as [res2 w2].
    destruct (res2 <? 0) eqn:Hres2.
    + intros [= -> _ _ _]. discriminate Hres2.
    + intros [= <- <- _]. exists crashlog, counter. rewrite Hr. auto.
Qed.

(** C3, as the code has it: a successful reservation returns
    <category-root>/<subdir><index>_<hashkey>, the index directly after
    the sub-directory name with no path separator between them; subdir is
    crashlog, stats or vmevent according to the category and index is the
    counter value read at reservation time as ["%d"] prints it, which for
    a value below 2^31 is its decimal numeral without padding. *)
Theorem C3_log_dir_name (conf : list sender_t) (hist : world -> string -> world)
  (w w' : world) (mode : e_dir_mode) (hashkey path : string) :
  generate_log_dir conf hist w mode hashkey = (Some path, w') ->
  exists crashlog subdir counter dir,
    Fs.get_sender_by_name conf "crashlog" = Some crashlog /\
    subdir_name mode = Some subdir /\
    log_names (outdir crashlog) mode = Some (counter, dir) /\
    let current := snd (Fs.file_read_int w counter 0) in
    path = outdir crashlog +:+ "/" +:+ subdir
           +:+ Fmt.fmt_d (CInt.to_sint32 current) +:+ "_" +:+ hashkey /\
    (current < 2 ^ 31 ->
     Fmt.fmt_d (CInt.to_sint32 current) = Fmt.fmt_u current /\
     unpadded (Fmt.fmt_u current) /\
     Fmt.scan_u (Fmt.fmt_u current) = Some current).
Proof.
  unfold generate_log_dir.
  destruct (reserve_log_folder conf w mode EmptyString 0) as [[[ret dir] current] w1] eqn:Hr.
  destruct (Z.eqb_spec ret 0) as [-> | Hne]; simpl; [|discriminate].
  destruct (Fs.mkdir w1 _) as [ret2 w2].
  destruct (ret2 =? -1); [discriminate|]. intros [= <- <-].
  destruct (reserve_log_folder_success _ _ _ _ _ _ _ _ Hr)
    as (crashlog & counter & Hs & Hn & Hc).
  destruct (log_names_subdir _ _ _ _ Hn) as (subdir & Hsub & ->).
  exists crashlog, subdir, counter, (outdir crashlog +:+ "/" +:+ subdir).
  repeat (split; [assumption|]). cbv zeta. rewrite Hc.
  split; [now rewrite !append_assoc|].
  intros Hlt.
  destruct (Fs.file_read_int w counter 0) as [res c] eqn:Hread. simpl in Hc. subst c.
  pose proof (file_read_int_range _ _ _ _ Hread) as Hrange.
  assert (Hs32 : CInt.to_sint32 current = current).
  { unfold CInt.to_sint32, CInt.to_sint. cbv zeta.
    rewrite Z.mod_small by lia.
    now replace (current <? 2 ^ (32 - 1)) with true by (symmetry; apply Z.ltb_lt; lia). }
  rewrite Hs32. split; [reflexivity|].
  split; [apply fmt_d_unpadded; lia|].
  pose proof (scan_fmt_u current ltac:(lia)) as Hscan.
  unfold Fmt.fmt_u in *. destruct current as [|p|p]; [reflexivity | | lia].
  now rewrite fmt_d_pos, digits_chomp, <- fmt_d_pos in Hscan.
Qed.

Lemma C3_log_dir_name_witness :
  exists crashlog subdir counter dir,
    Fs.get_sender_by_name Sample.conf "crashlog" = Some crashlog /\
    subdir_name MODE_STATS = Some subdir /\
    log_names (outdir crashlog) MODE_STATS = Some (counter, dir) /\
    let current := snd (Fs.file_read_int Sample.fresh counter 0) in
    "/var/log/crashlog/stats0_abc"
      = outdir crashlog +:+ "/" +:+ subdir
        +:+ Fmt.fmt_d (CInt.to_sint32 current) +:+ "_" +:+ "abc" /\
    (current < 2 ^ 31 ->
     Fmt.fmt_d (CInt.to_sint32 current) = Fmt.fmt_u current /\
     unpadded (Fmt.fmt_u current) /\
     Fmt.scan_u (Fmt.fmt_u current) = Some current).
Proof.
  apply (C3_log_dir_name Sample.conf Sample.history Sample.fresh
           (snd (generate_log_dir Sample.conf Sample.history Sample.fresh MODE_STATS "abc"))
           MODE_STATS "abc" "/var/log/crashlog/stats0_abc").
  vm_compute. reflexivity.
Defined.

(** C3, the claim as stated fails: the first crash directory of a fresh
    root is /var/log/crashlog/crashlog0_abc; whatever the index, it is not
    of the form <root>/crashlog/<index>_abc. *)
Lemma C3_separator_counterexample :
  fst (generate_log_dir Sample.conf Sample.history Sample.fresh MODE_CRASH "abc")
    = Some "/var/log/crashlog/crashlog0_abc" /\
  forall index : string,
    fst (generate_log_dir Sample.conf Sample.history Sample.fresh MODE_CRASH "abc")
      <> Some ("/var/log/crashlog" +:+ "/" +:+ "crashlog" +:+ "/" +:+ index +:+ "_" +:+ "abc").
Proof.
  split; [vm_compute; reflexivity|].
  intros index H. vm_compute in H. discriminate H.
Qed.

(** C4: when the counter file does not exist or is malformed, on a
    working store with a non-zero slot count and names that fit the
    buffers, the reservation reads the current index as 0 and succeeds
    with index 0, whatever its out-parameters held before; so the first
    directory of a fresh category root carries index 0. *)
Theorem C4_missing_or_malformed_counter_is_zero (conf : list sender_t)
  (hist : world -> string -> world) (w : world)
  (mode : e_dir_mode) (crashlog : sender_t) (counter dir : string) :
  Fs.get_sender_by_name conf "crashlog" = Some crashlog ->
  log_names (outdir crashlog) mode = Some (counter, dir) ->
  names_fit (counter, dir) = true ->
  maxdirs_of crashlog <> 0 ->
  counter ∉ io_fault w -> counter ∉ dirs w ->
  (files w !! counter = None \/
   exists data, files w !! counter = Some data /\ malformed data) ->
  (forall d0 c0,
     Fs.file_read_int w counter c0 = (0, 0) /\
     exists w', reserve_log_folder conf w mode d0 c0 = (0, dir, 0, w')) /\
  (forall hashkey,
     let path := dir +:+ "0" +:+ "_" +:+ hashkey in
     Fs.file_exists w path = false -> path ∉ io_fault w ->
     fst (generate_log_dir conf hist w mode hashkey) = Some path).
Proof.
  intros Hsender Hnames _ Hmax Hf Hd Hfile.
  assert (Hread : forall c0, Fs.file_read_int w counter c0 = (0, 0)).
  { intros c0. unfold Fs.file_read_int.
    rewrite !bool_decide_eq_false_2 by assumption. simpl.
    destruct Hfile as [-> | (data & -> & Hbad)]; [reflexivity|].
    unfold malformed in Hbad. destruct (Fmt.scan_u (Fs.chomp data)) as [n|]; [|reflexivity].
    now replace (n <? 2 ^ 32) with false by (symmetry; apply Z.ltb_ge, Hbad). }
  pose proof (fun d0 c0 =>
                reserve_step conf crashlog mode counter dir Hsender Hnames Hmax
                  w d0 c0 0 Hf Hd (Hread c0)) as Hstep.
  split; [intros d0 c0; split; [apply Hread | eexists; apply Hstep]|].
  intros hashkey path Hfree Hok.
  unfold generate_log_dir. rewrite Hstep. simpl negb. cbv iota.
  change (Fmt.fmt_d (CInt.to_sint32 0)) with "0". fold path.
  assert (Hne : counter <> path).
  { intros E. symmetry in E. revert E. apply (log_names_apart _ _ _ _ _ Hnames). }
  unfold Fs.mkdir, Fs.file_exists in *. simpl.
  rewrite lookup_insert_ne by exact Hne.
  destruct (files w !! path); [discriminate Hfree|]. rewrite Hfree.
  now rewrite bool_decide_eq_false_2 by exact Hok.
Qed.

Lemma C4_missing_or_malformed_counter_is_zero_witness :
  (forall d0 c0,
     Fs.file_read_int Sample.bad_counter "/var/log/crashlog/currentcrashlog" c0 = (0, 0) /\
     exists w', reserve_log_folder Sample.conf Sample.bad_counter MODE_CRASH d0 c0
                = (0, "/var/log/crashlog/crashlog", 0, w')) /\
  (forall hashkey,
     let path := "/var/log/crashlog/crashlog" +:+ "0" +:+ "_" +:+ hashkey in
     Fs.file_exists Sample.bad_counter path = false ->
     path ∉ io_fault Sample.bad_counter ->
     fst (generate_log_dir Sample.conf Sample.history Sample.bad_counter MODE_CRASH hashkey)
       = Some path).
Proof.
  apply (C4_missing_or_malformed_counter_is_zero Sample.conf Sample.history
           Sample.bad_counter MODE_CRASH
           {| name := "crashlog"; outdir := "/var/log/crashlog"; maxcrashdirs := "3" |}
           "/var/log/crashlog/currentcrashlog" "/var/log/crashlog/crashlog").
  - vm_compute. reflexivity.
  - vm_compute. reflexivity.
  - vm_compute. reflexivity.
  - vm_compute. discriminate.
  - simpl. set_solver.
  - simpl. set_solver.
  - right. exists "x1". split; [vm_compute; reflexivity | exact I].
Defined.

(** C5, the claim as stated fails: values are written as they are, so
    with an event name on two lines and a type whose second line is
    DATA0=forged the file has ten lines, not eight, and one of them is a
    DATA0= line although no data argument was supplied. *)
Lemma C5_line_break_counterexample :
  exists text,
    files (generate_crashfile 24 32 "v1" "uuid" Sample.fresh "/d" Sample.two_line_event
             "abc" Sample.forged_type None None None) !! "/d/crashfile" = Some text /\
    split_lines text =
      [ "EVENT=A"; "B"; "ID=abc"; "DEVICEID=uuid"; "DATE=2026-10-30/13:05:07  ";
        "UPTIME=0001:02:05"; "BUILD=v1"; "TYPE=T"; "DATA0=forged"; "_END" ] /\
    length (split_lines text) <> 8%nat /\
    has_key "DATA0" (split_lines text) = true.
Proof.
  eexists. split; [vm_compute; reflexivity|].
  split; [vm_compute; reflexivity|]. split; [vm_compute; discriminate | vm_compute; reflexivity].
Qed.

Lemma C5_report_lines_in_order_witness :
  exists text,
    files (generate_crashfile 24 32 "v1" "uuid" Sample.fresh "/d" "CRASH" "abc" "T"
             (Some "d0") None (Some "d2")) !! "/d/crashfile" = Some text /\
    split_lines text =
      [ "EVENT=CRASH"; "ID=abc"; "DEVICEID=uuid"; "DATE=2026-10-30/13:05:07  ";
        "UPTIME=0001:02:05"; "BUILD=v1"; "TYPE=T"; "DATA0=d0"; "DATA2=d2"; "_END" ].
Proof.
  destruct (C5_report_lines_in_order 24 32 "v1" "uuid" Sample.fresh "/d" "CRASH" "abc" "T"
              (Some "d0") None (Some "d2")
              ltac:(vm_compute; reflexivity) ltac:(vm_compute; reflexivity)
              ltac:(vm_compute; reflexivity) ltac:(vm_compute; reflexivity))
    as (text & Hfile & _ & Hlines & _).
  exists text. split; [exact Hfile | exact Hlines].
Defined.

Lemma C9_no_timestamp_nothing_written_witness :
  generate_crashfile 24 32 "v1" "uuid" Sample.no_wall_clock "/d" "CRASH" "abc" "T"
    None None None = Sample.no_wall_clock.
Proof.
  apply (C9_no_timestamp_nothing_written 24 32 "v1" "uuid" Sample.no_wall_clock).
  vm_compute. discriminate.
Defined.

Lemma C10_uptime_failure_is_tolerated_witness :
  files (generate_crashfile 24 32 "v1" "uuid" Sample.no_boot_clock "/d" "CRASH" "abc"
           "T" None None None) !! "/d/crashfile"
    = Some (unlines [ "EVENT=CRASH"; "ID=abc"; "DEVICEID=uuid";
                      "DATE=2026-10-30/13:05:07  "; "UPTIME="; "BUILD=v1";
                      "TYPE=T"; "_END" ]).
Proof.
  apply (C10_uptime_failure_is_tolerated 24 32 "v1" "uuid" Sample.no_boot_clock "/d"
           "CRASH" "abc" "T" None None None); vm_compute; reflexivity.
Defined.

(** * Boot session tracking *)

Section BootId.

Variable conf : list sender_t.

Lemma read_file_ok (w : world) (p data : string) :
  p ∉ io_fault w -> files w !! p = Some data ->
  Fs.read_file w p = (0, Z.of_nat (String.length data), data).
Proof.
  intros Hf Hp. unfold Fs.read_file.
  now rewrite bool_decide_eq_false_2, Hp by exact Hf.
Qed.

Lemma size_nonzero (data : string) :
  data <> EmptyString -> (Z.of_nat (String.length data) =? 0) = false.
Proof. destruct data; [congruence|]. intros _. apply Z.eqb_neq. simpl. lia. Qed.

(** Whatever the store, a check that reports "unchanged" has written
    nothing. *)
Lemma unchanged_writes_nothing (w : world) :
  fst (is_boot_id_changed conf w) = 0 -> snd (is_boot_id_changed conf w) = w.
Proof.
  unfold is_boot_id_changed.
  destruct (Fs.get_sender_by_name conf "crashlog") as [crashlog|]; [|discriminate].
  destruct (Fs.read_file w BOOTID_NODE) as [[res size] boot_id].
  destruct ((res =? -1) || (size =? 0)); [discriminate|].
  destruct (Fs.file_exists w (logged_boot_id_path crashlog)); [|discriminate].
  destruct (Fs.read_file w (logged_boot_id_path crashlog)) as [[res2 size2] logged].
  destruct ((res2 =? -1) || (size2 =? 0)); [discriminate|].
  destruct (Fmt.strcmp_eq logged boot_id); [reflexivity | discriminate].
Qed.

(** C8, as the code has it, for a configured sender and a readable,
    non-empty current boot id: with no record file the check reports
    "changed" and persists the current id; with a readable, non-empty
    record that differs it reports "changed" and overwrites the record;
    with one that is equal it reports "unchanged" and the store is left
    exactly as it was.  A report "unchanged" never comes with a write. *)
Theorem C8_boot_id_persisted_on_change (w : world) (crashlog : sender_t)
  (boot_id : string) :
  Fs.get_sender_by_name conf "crashlog" = Some crashlog ->
  BOOTID_NODE ∉ io_fault w ->
  files w !! BOOTID_NODE = Some boot_id ->
  boot_id <> EmptyString ->
  let path := logged_boot_id_path crashlog in
  let persisted := snd (Fs.overwrite_file w path (Fmt.cstr boot_id)) in
  (files w !! path = None -> path ∉ dirs w ->
   is_boot_id_changed conf w = (1, persisted)) /\
  (forall logged,
     files w !! path = Some logged -> path ∉ io_fault w -> logged <> EmptyString ->
     (Fmt.cstr logged <> Fmt.cstr boot_id ->
      is_boot_id_changed conf w = (1, persisted)) /\
     (Fmt.cstr logged = Fmt.cstr boot_id ->
      is_boot_id_changed conf w = (0, w))) /\
  (path ∉ io_fault w -> path ∉ dirs w ->
   files persisted !! path = Some (Fmt.cstr boot_id)) /\
  (fst (is_boot_id_changed conf w) = 0 -> snd (is_boot_id_changed conf w) = w).
Proof.
  intros Hsender Hnf Hnode Hne path persisted.
  assert (Hhead : is_boot_id_changed conf w =
    if Fs.file_exists w path then
      let '(res, size, logged) := Fs.read_file w path in
      if (res =? -1) || (size =? 0) then (1, w)
      else if Fmt.strcmp_eq logged boot_id then (0, w) else (1, persisted)
    else (1, persisted)).
  { unfold is_boot_id_changed. rewrite Hsender, (read_file_ok _ _ _ Hnf Hnode).
    rewrite size_nonzero by exact Hne. simpl. fold path.
    destruct (Fs.file_exists w path); [|reflexivity].
    destruct (Fs.read_file w path) as [[res size] logged].
    destruct ((res =? -1) || (size =? 0)); [reflexivity|].
    destruct (Fmt.strcmp_eq logged boot_id); reflexivity. }
  split; [|split; [|split]].
  - intros Hnone Hnd. rewrite Hhead. unfold Fs.file_exists. rewrite Hnone.
    now rewrite bool_decide_eq_false_2 by exact Hnd.
  - intros logged Hrec Hok Hlog. rewrite Hhead. unfold Fs.file_exists. rewrite Hrec.
    rewrite (read_file_ok _ _ _ Hok Hrec), size_nonzero by exact Hlog. simpl.
    unfold Fmt.strcmp_eq.
    split; intros Hcmp.
    + apply String.eqb_neq in Hcmp. now rewrite Hcmp.
    + apply String.eqb_eq in Hcmp. now rewrite Hcmp.
  - intros Hok Hnd. subst persisted. rewrite overwrite_file_ok by assumption.
    simpl. apply lookup_insert_eq.
  - apply unchanged_writes_nothing.
Qed.

End BootId.

Lemma C8_boot_id_persisted_on_change_witness :
  is_boot_id_changed Sample.conf Sample.first_boot
    = (1, snd (Fs.overwrite_file Sample.first_boot "/var/log/crashlog/currentbootid" "boot-A")) /\
  is_boot_id_changed Sample.conf Sample.next_boot
    = (1, snd (Fs.overwrite_file Sample.next_boot "/var/log/crashlog/currentbootid" "boot-B")) /\
  is_boot_id_changed Sample.conf Sample.same_boot = (0, Sample.same_boot).
Proof.
  pose (crashlog :=
    {| name := "crashlog"; outdir := "/var/log/crashlog"; maxcrashdirs := "3" |}).
  split; [|split].
  - apply (C8_boot_id_persisted_on_change Sample.conf Sample.first_boot crashlog "boot-A");
      try (vm_compute; reflexivity); try discriminate; simpl; set_solver.
  - destruct (C8_boot_id_persisted_on_change Sample.conf Sample.next_boot crashlog "boot-B")
      as (_ & Hrecord & _);
      [reflexivity | simpl; set_solver | reflexivity | discriminate |].
    apply (Hrecord "boot-A");
      [reflexivity | simpl; set_solver | discriminate | vm_compute; discriminate].
  - destruct (C8_boot_id_persisted_on_change Sample.conf Sample.same_boot crashlog "boot-A")
      as (_ & Hrecord & _);
      [reflexivity | simpl; set_solver | reflexivity | discriminate |].
    apply (Hrecord "boot-A");
      [reflexivity | simpl; set_solver | discriminate | vm_compute; reflexivity].
Defined.

(** C8, the claim as stated fails: the record file exists and is empty, so
    the record differs from the current boot id "boot-A"; the check reports
    "changed" and yet writes nothing, the record stays empty. *)
Lemma C8_empty_record_counterexample :
  files Sample.empty_record !! BOOTID_NODE = Some "boot-A" /\
  files Sample.empty_record !! "/var/log/crashlog/currentbootid" = Some EmptyString /\
  is_boot_id_changed Sample.conf Sample.empty_record = (1, Sample.empty_record) /\
  files (snd (is_boot_id_changed Sample.conf Sample.empty_record))
    !! "/var/log/crashlog/currentbootid" <> Some "boot-A".
Proof.
  repeat split; try (vm_compute; reflexivity). vm_compute. discriminate.
Qed.

(** * Further properties of the code *)

Section IntegerFacts.

Lemma to_sint64_of_uint64 (x : Z) : CInt.to_sint64 (CInt.to_uint64 x) = CInt.to_sint64 x.
Proof.
  unfold CInt.to_sint64, CInt.to_uint64, CInt.to_sint, CInt.to_uint.
  now rewrite Z.mod_mod by lia.
Qed.

Lemma to_sint64_small (x : Z) : 0 <= x < 2 ^ 63 -> CInt.to_sint64 x = x.
Proof.
  intros H. unfold CInt.to_sint64, CInt.to_sint. cbv zeta.
  rewrite Z.mod_small by lia.
  now replace (x <? 2 ^ (64 - 1)) with true by (symmetry; apply Z.ltb_lt; lia).
Qed.

Lemma to_sint32_small (x : Z) : 0 <= x < 2 ^ 31 -> CInt.to_sint32 x = x.
Proof.
  intros H. unfold CInt.to_sint32, CInt.to_sint. cbv zeta.
  rewrite Z.mod_small by lia.
  now replace (x <? 2 ^ (32 - 1)) with true by (symmetry; apply Z.ltb_lt; lia).
Qed.

Lemma length_zeros (n : nat) : String.length (Fmt.zeros n) = n.
Proof. induction n as [|n IH]; simpl; [reflexivity | now rewrite IH]. Qed.

(** A non-negative value takes its digits or the width, whichever is
    more. *)
Lemma length_fmt_0d (width : nat) (z : Z) :
  0 <= z ->
  String.length (Fmt.fmt_0d width z) = Nat.max width (String.length (Fmt.fmt_d z)).
Proof.
  intros Hz. unfold Fmt.fmt_0d, Fmt.pad0.
  replace (z <? 0) with false by (symmetry; apply Z.ltb_ge; lia).
  rewrite length_append, length_zeros. lia.
Qed.

Lemma length_string_of_uint (d : Decimal.uint) :
  String.length (NilEmpty.string_of_uint d) = Decimal.nb_digits d.
Proof. induction d; simpl; congruence. Qed.

(** Reading digits after an accumulator [acc] gives a number that starts
    with [acc]. *)
Lemma of_uint_acc_bounds (l : Decimal.uint) (acc : positive) :
  Z.pos acc * 10 ^ Z.of_nat (Decimal.nb_digits l)
    <= Z.pos (Pos.of_uint_acc l acc)
    < (Z.pos acc + 1) * 10 ^ Z.of_nat (Decimal.nb_digits l).
Proof.
  revert acc. induction l as [|l IH|l IH|l IH|l IH|l IH|l IH|l IH|l IH|l IH|l IH];
    intros acc; simpl Decimal.nb_digits; simpl Pos.of_uint_acc;
    [simpl; lia | ..];
    rewrite Nat2Z.inj_succ, Z.pow_succ_r by lia;
    match goal with
    | |- context [Pos.of_uint_acc l ?a] => specialize (IH a)
    end;
    assert (HX : 0 < 10 ^ Z.of_nat (Decimal.nb_digits l)) by (apply Z.pow_pos_nonneg; lia);
    set (X := 10 ^ Z.of_nat (Decimal.nb_digits l)) in *;
    rewrite ?Pos2Z.inj_add, ?Pos2Z.inj_mul in IH; nia.
Qed.

(** A positive number lies between the powers of ten that the length of
    its ["%d"] text names. *)
Lemma fmt_d_magnitude (p : positive) :
  let len := Z.of_nat (String.length (Fmt.fmt_d (Z.pos p))) in
  10 ^ (len - 1) <= Z.pos p < 10 ^ len.
Proof.
  cbv zeta. rewrite fmt_d_pos, length_string_of_uint.
  pose proof (DecimalPos.Unsigned.of_to p) as Hof.
  pose proof (Unsigned.to_uint_nonnil p) as Hnil.
  pose proof (to_uint_no_leading_zero p) as Hz.
  destruct (Pos.to_uint p) as [|l|l|l|l|l|l|l|l|l|l];
    [contradiction | now contradiction (Hz l) | ..];
    simpl in Hof; injection Hof as <-; simpl Decimal.nb_digits;
    rewrite Nat2Z.inj_succ;
    replace (Z.succ (Z.of_nat (Decimal.nb_digits l)) - 1)
      with (Z.of_nat (Decimal.nb_digits l)) by lia;
    rewrite Z.pow_succ_r by lia;
    match goal with
    | |- context [Pos.of_uint_acc l ?a] => pose proof (of_uint_acc_bounds l a) as Hb
    end;
    assert (HX : 0 < 10 ^ Z.of_nat (Decimal.nb_digits l)) by (apply Z.pow_pos_nonneg; lia);
    set (X := 10 ^ Z.of_nat (Decimal.nb_digits l)) in *; nia.
Qed.

(** Fewer than [k] digits would make the number too small, more too
    large. *)
Lemma fmt_d_digits (z k : Z) :
  0 < k -> 10 ^ (k - 1) <= z < 10 ^ k ->
  Z.of_nat (String.length (Fmt.fmt_d z)) = k.
Proof.
  intros Hk Hz.
  assert (Hpos : 0 < z).
  { assert (0 < 10 ^ (k - 1)) by (apply Z.pow_pos_nonneg; lia). lia. }
  destruct z as [|p|p]; try lia.
  pose proof (fmt_d_magnitude p) as Hm. cbv zeta in Hm.
  set (len := Z.of_nat (String.length (Fmt.fmt_d (Z.pos p)))) in *.
  assert (Hlen : 0 <= len) by (subst len; lia).
  destruct (Z.lt_trichotomy len k) as [Hlt | [Heq | Hgt]]; [|exact Heq|].
  - assert (10 ^ len <= 10 ^ (k - 1)) by (apply Z.pow_le_mono_r; lia). lia.
  - assert (10 ^ k <= 10 ^ (len - 1)) by (apply Z.pow_le_mono_r; lia). lia.
Qed.

Lemma length_fmt_d_2 (z : Z) : 0 <= z < 100 -> (String.length (Fmt.fmt_d z) <= 2)%nat.
Proof.
  intros Hz. destruct (Z.eq_dec z 0) as [-> | Hnz]; [simpl; lia|].
  destruct (Z_lt_ge_dec z 10) as [H1 | H2].
  - pose proof (fmt_d_digits z 1 ltac:(lia) ltac:(simpl; lia)). lia.
  - pose proof (fmt_d_digits z 2 ltac:(lia) ltac:(simpl; lia)). lia.
Qed.

Lemma length_fmt_d_4 (z : Z) : 0 <= z < 10000 -> (String.length (Fmt.fmt_d z) <= 4)%nat.
Proof.
  intros Hz. destruct (Z_lt_ge_dec z 100) as [H1 | H2].
  - pose proof (length_fmt_d_2 z ltac:(lia)). lia.
  - destruct (Z_lt_ge_dec z 1000) as [H3 | H4].
    + pose proof (fmt_d_digits z 3 ltac:(lia) ltac:(simpl; lia)). lia.
    + pose proof (fmt_d_digits z 4 ltac:(lia) ltac:(simpl; lia)). lia.
Qed.

Lemma length_fmt_d_year (z : Z) :
  1000 <= z < 10000 -> String.length (Fmt.fmt_d z) = 4%nat.
Proof.
  intros Hz. pose proof (fmt_d_digits z 4 ltac:(lia) ltac:(simpl; lia)). lia.
Qed.

Lemma length_field_2 (z : Z) : 0 <= z < 100 -> String.length (Fmt.fmt_0d 2 z) = 2%nat.
Proof.
  intros Hz. rewrite length_fmt_0d by lia. pose proof (length_fmt_d_2 z Hz). lia.
Qed.

End IntegerFacts.

Section TimeStrings.

Variables (UPTIME_SIZE LONG_TIME_SIZE : nat).

(** X1: with a readable boot clock showing [s] whole seconds (below 2^31)
    the uptime text is hours, minutes and seconds of [s]: [s / 3600] on at
    least four digits, [s / 60 mod 60] and [s mod 60] on two; the result is
    the length of that text, never the error value, and it is 10 as long
    as the hours have four digits. *)
Theorem X1_uptime_is_hours_minutes_seconds (w : world) (ts : timespec) (buf : string) :
  boottime w = Some ts ->
  0 <= tv_sec ts < 2 ^ 31 -> 0 <= tv_nsec ts < 1000000000 ->
  let s := tv_sec ts in
  let text := Fmt.fmt_0d 4 (s / 3600) +:+ ":" +:+ Fmt.fmt_0d 2 (s / 60 mod 60)
              +:+ ":" +:+ Fmt.fmt_0d 2 (s mod 60) in
  get_uptime_string UPTIME_SIZE w buf
    = (Z.of_nat (String.length text), Fmt.snprintf UPTIME_SIZE buf text, Some (s / 3600)) /\
  (10 <= String.length text)%nat /\
  (s < 36000000 -> String.length text = 10%nat).
Proof.
  intros Hclock Hs Hn s text.
  assert (Hns : CInt.to_sint64 (get_uptime w) = s * 1000000000 + tv_nsec ts).
  { unfold get_uptime. rewrite Hclock, to_sint64_of_uint64.
    rewrite (to_sint64_small (tv_sec ts * 1000000000 + tv_nsec ts)) by (subst s; lia).
    apply to_sint64_small. subst s. lia. }
  assert (Hq : Z.quot (s * 1000000000 + tv_nsec ts) 1000000000 = s).
  { rewrite Z.quot_div_nonneg by (subst s; lia).
    rewrite Z.div_add_l by lia. rewrite Z.div_small by lia. lia. }
  assert (Hm : 0 <= s / 60 mod 60 < 60) by (apply Z.mod_pos_bound; lia).
  assert (Hsec : 0 <= s mod 60 < 60) by (apply Z.mod_pos_bound; lia).
  assert (Hh : 0 <= s / 3600) by (apply Z.div_pos; subst s; lia).
  split; [|split].
  - unfold get_uptime_string. rewrite Hns.
    replace (s * 1000000000 + tv_nsec ts =? -1) with false
      by (symmetry; apply Z.eqb_neq; subst s; lia).
    rewrite Hq, (to_sint32_small s) by (subst s; lia).
    assert (H60 : 0 <= s / 60) by (apply Z.div_pos; subst s; lia).
    rewrite (Z.quot_div_nonneg s 60), (Z.rem_mod_nonneg s 60) by (subst s; lia).
    rewrite (Z.quot_div_nonneg (s / 60) 60), (Z.rem_mod_nonneg (s / 60) 60) by lia.
    rewrite Z.div_div by lia. reflexivity.
  - subst text. rewrite !length_append, !length_field_2 by lia.
    rewrite length_fmt_0d by lia. simpl String.length. lia.
  - intros Hlt. subst text. rewrite !length_append, !length_field_2 by lia.
    rewrite length_fmt_0d by lia.
    assert (s / 3600 < 10000) by (apply Z.div_lt_upper_bound; lia).
    pose proof (length_fmt_d_4 (s / 3600) ltac:(lia)). simpl String.length. lia.
Qed.


End TimeStrings.

Lemma X1_uptime_is_hours_minutes_seconds_witness :
  get_uptime_string 24 Sample.fresh EmptyString = (10, "0001:02:05", Some 1).
Proof.
  apply (X1_uptime_is_hours_minutes_seconds 24 Sample.fresh Sample.up EmptyString);
    [reflexivity | simpl; lia | simpl; lia].
Defined.

(** When everything fits, every piece is stored. *)
Lemma store_items_fits (max : nat) (buf : string) (items : list string) (stored : string) :
  (String.length stored + String.length (join items) < max)%nat ->
  store_items max buf stored items
    = (Z.of_nat (String.length stored + String.length (join items)), stored +:+ join items).
Proof.
  revert stored. induction items as [|item rest IH]; intros stored Hfit.
  - simpl. now rewrite Nat.add_0_r, append_nil_r.
  - pose proof (length_append stored item) as Hlen.
    simpl store_items. simpl join in *. rewrite length_append in Hfit.
    replace (String.length stored + String.length item <? max)%nat with true
      by (symmetry; apply Nat.ltb_lt; lia).
    rewrite IH by lia. rewrite Hlen, length_append, append_assoc.
    do 2 f_equal. lia.
Qed.

(** When the whole does not fit, the result is 0, wherever the storing
    stops. *)
Lemma store_items_short (max : nat) (buf : string) (items : list string) (stored : string) :
  (items = [] -> (String.length stored < max)%nat) ->
  (max <= String.length stored + String.length (join items))%nat ->
  fst (store_items max buf stored items) = 0.
Proof.
  revert stored. induction items as [|item rest IH]; intros stored Hnil Hshort.
  - specialize (Hnil eq_refl). simpl in Hshort. lia.
  - pose proof (length_append stored item) as Hlen.
    simpl store_items. simpl join in Hshort. rewrite length_append in Hshort.
    destruct (Nat.ltb_spec (String.length stored + String.length item) max) as [Hlt|Hge];
      [|reflexivity].
    apply IH; [intros _|]; lia.
Qed.

(** X3: for a time of the years 1000 to 9999 the timestamp
    YYYY-MM-DD/HH:MM:SS followed by two spaces has 21 characters;
    [get_current_time_long] returns 21 with that text when the buffer has
    at least 22 bytes; with a smaller buffer it returns 0, and
    [generate_crashfile] then writes nothing: no report carries a cut
    timestamp. *)
Theorem X3_timestamp_is_whole_or_absent (UPTIME_SIZE LONG_TIME_SIZE : nat)
  (gbuildversion guuid : string) (w : world) (t : tm) (buf : string) :
  walltime w = Some t -> ordinary_time t ->
  let text := Fmt.fmt_d (tm_year t + 1900) +:+ "-" +:+ Fmt.fmt_0d 2 (tm_mon t + 1)
              +:+ "-" +:+ Fmt.fmt_0d 2 (tm_mday t) +:+ "/"
              +:+ Fmt.fmt_0d 2 (tm_hour t) +:+ ":" +:+ Fmt.fmt_0d 2 (tm_min t)
              +:+ ":" +:+ Fmt.fmt_0d 2 (tm_sec t) +:+ "  " in
  String.length text = 21%nat /\
  ((22 <= LONG_TIME_SIZE)%nat -> get_current_time_long LONG_TIME_SIZE w buf = (21, text)) /\
  ((LONG_TIME_SIZE < 22)%nat ->
   fst (get_current_time_long LONG_TIME_SIZE w buf) = 0 /\
   forall dir event hashkey type data0 data1 data2,
     generate_crashfile UPTIME_SIZE LONG_TIME_SIZE gbuildversion guuid w dir event hashkey
       type data0 data1 data2 = w).
Proof.
  intros Hclock (Hy & Hmo & Hd & Hh & Hmi & Hs) text.
  assert (Hlen : String.length text = 21%nat).
  { subst text. rewrite !length_append, !length_field_2, length_fmt_d_year by lia.
    reflexivity. }
  assert (Hjoin : join (date_items t) = text) by reflexivity.
  assert (Hshort : forall b, (LONG_TIME_SIZE < 22)%nat ->
            fst (get_current_time_long LONG_TIME_SIZE w b) = 0).
  { intros b Hsize. unfold get_current_time_long, strftime. rewrite Hclock.
    apply store_items_short; [discriminate|]. rewrite Hjoin, Hlen. simpl. lia. }
  split; [exact Hlen|]. split.
  - intros Hsize. unfold get_current_time_long, strftime. rewrite Hclock.
    rewrite store_items_fits by (rewrite Hjoin, Hlen; simpl; lia).
    now rewrite Hjoin, Hlen.
  - intros Hsize. split; [apply Hshort, Hsize|].
    intros dir event hashkey type data0 data1 data2.
    unfold generate_crashfile. specialize (Hshort EmptyString Hsize).
    destruct (get_current_time_long LONG_TIME_SIZE w EmptyString) as [ret dt].
    simpl in Hshort. now subst ret.
Qed.

Lemma X3_timestamp_is_whole_or_absent_witness :
  get_current_time_long 32 Sample.fresh EmptyString = (21, "2026-10-30/13:05:07  ").
Proof.
  apply (X3_timestamp_is_whole_or_absent 24 32 "v1" "uuid" Sample.fresh Sample.now
           EmptyString);
    [reflexivity | unfold ordinary_time; simpl; lia | lia].
Defined.

(** X4: [compute_key] rejects exactly a null key buffer, a null seed, a
    length of 0 and a length above 64, and then leaves the key buffer as
    it was; otherwise it returns 0 and a key of [2 * (key_len / 2)]
    lowercase hexadecimal digits, which is at most [key_len]: the
    [key_len + 1] bytes of the caller are enough, and an odd length gives
    one digit less. *)
Theorem X4_compute_key_validation (VERSION_SIZE : nat) (gbuildversion guuid : string)
  (w : world) (key : option string) (key_len : nat) (seed : option string) :
  let r := compute_key VERSION_SIZE gbuildversion guuid w key key_len seed in
  (fst r = -1 <-> key = None \/ seed = None \/ key_len = 0%nat \/ (64 < key_len)%nat) /\
  (fst r = -1 -> snd r = key) /\
  (fst r <> -1 ->
   fst r = 0 /\
   exists k, snd r = Some k /\ String.length k = (2 * (key_len / 2))%nat /\
             (String.length k <= key_len)%nat /\ all_lower_hex k = true).
Proof.
  cbv zeta. destruct key as [buf|], seed as [sd|];
    try (simpl; split; [split; auto | split; [reflexivity | congruence]]).
  destruct (Nat.eq_dec key_len 0%nat) as [-> | Hnz].
  { simpl. split; [split; auto | split; [reflexivity | congruence]]. }
  destruct (Nat.lt_ge_cases 64%nat key_len) as [Hbig | Hok].
  { unfold compute_key.
    replace (SHA256.SHA256_DIGEST_LENGTH * 2 <? key_len)%nat with true
      by (symmetry; apply Nat.ltb_lt; exact Hbig).
    simpl. split; [split; auto | split; [reflexivity | congruence]]. }
  rewrite compute_key_ok by assumption. cbn [fst snd].
  split; [|split].
  - split; [discriminate|]. intros [H | [H | [H | H]]]; try discriminate; lia.
  - discriminate.
  - intros _. split; [reflexivity|]. eexists. split; [reflexivity|].
    rewrite hex_loop_length. split; [reflexivity|].
    split; [|apply hex_loop_lower, digest_nth].
    pose proof (Nat.div_mod_eq key_len 2). lia.
Qed.

(** X5: [generate_event_id] returns null exactly when [seed1] is null or
    the variant is neither [KEY_SHORT] nor [KEY_LONG]; no state of the
    clocks or of the store makes it fail. *)
Theorem X5_event_id_fails_only_on_arguments (VERSION_SIZE : nat)
  (gbuildversion guuid : string) (w : world) (seed1 seed2 : option string)
  (type : key_type) :
  generate_event_id VERSION_SIZE gbuildversion guuid w seed1 seed2 type = None <->
  seed1 = None \/ exists raw, type = KEY_INVALID raw.
Proof.
  destruct seed1 as [s1|]; [|split; auto].
  destruct type as [| |raw].
  - rewrite (generate_event_id_some _ _ _ w s1 seed2 KEY_SHORT SHORT_KEY_LENGTH) by auto.
    split; [discriminate | intros [H | [raw H]]; discriminate].
  - rewrite (generate_event_id_some _ _ _ w s1 seed2 KEY_LONG LONG_KEY_LENGTH) by auto.
    split; [discriminate | intros [H | [raw H]]; discriminate].
  - split; [eauto | reflexivity].
Qed.

(** X6: only the concatenation of the seeds counts: [seed1] with [seed2]
    gives the identifier of [seed1 ++ seed2] alone, so an empty [seed2] is
    the same as a null one, and seeds split at another place collide. *)
Theorem X6_seeds_are_concatenated (VERSION_SIZE : nat) (gbuildversion guuid : string)
  (w : world) (s1 s2 : string) (type : key_type) :
  generate_event_id VERSION_SIZE gbuildversion guuid w (Some s1) (Some s2) type
    = generate_event_id VERSION_SIZE gbuildversion guuid w (Some (s1 +:+ s2)) None type /\
  generate_event_id VERSION_SIZE gbuildversion guuid w (Some s1) (Some EmptyString) type
    = generate_event_id VERSION_SIZE gbuildversion guuid w (Some s1) None type /\
  forall a b, a +:+ b = s1 +:+ s2 ->
    generate_event_id VERSION_SIZE gbuildversion guuid w (Some a) (Some b) type
      = generate_event_id VERSION_SIZE gbuildversion guuid w (Some s1) (Some s2) type.
Proof.
  split; [|split].
  - unfold generate_event_id. destruct type; reflexivity.
  - unfold generate_event_id. rewrite append_nil_r. destruct type; reflexivity.
  - intros a b E. unfold generate_event_id. rewrite E. destruct type; reflexivity.
Qed.

Lemma take_hex_loop (n m i : nat) (results : list Z) :
  (n <= m)%nat -> Fmt.take (2 * n) (hex_loop m i results) = hex_loop n i results.
Proof.
  revert m i. induction n as [|n IH]; intros m i Hle; [reflexivity|].
  destruct m as [|m]; [lia|].
  replace (2 * S n)%nat with (S (S (2 * n))) by lia.
  simpl hex_loop. unfold Fmt.fmt_02x. rewrite !append_cons, !append_nil.
  simpl Fmt.take. now rewrite IH by lia.
Qed.

(** X7: for the same seeds at the same clock reading the short
    identifier is the first 20 characters of the long one. *)
Theorem X7_short_id_is_prefix_of_long (VERSION_SIZE : nat) (gbuildversion guuid : string)
  (w : world) (seed1 : string) (seed2 : option string) :
  option_map (Fmt.take 20)
    (generate_event_id VERSION_SIZE gbuildversion guuid w (Some seed1) seed2 KEY_LONG)
  = generate_event_id VERSION_SIZE gbuildversion guuid w (Some seed1) seed2 KEY_SHORT.
Proof.
  rewrite (generate_event_id_some _ _ _ w seed1 seed2 KEY_LONG LONG_KEY_LENGTH) by auto.
  rewrite (generate_event_id_some _ _ _ w seed1 seed2 KEY_SHORT SHORT_KEY_LENGTH) by auto.
  cbn [option_map]. apply f_equal.
  change (LONG_KEY_LENGTH / 2)%nat with 16%nat.
  change (SHORT_KEY_LENGTH / 2)%nat with 10%nat.
  change 20%nat with (2 * 10)%nat.
  apply take_hex_loop. lia.
Qed.

Lemma hex_val_digit (d : Z) : 0 <= d < 16 -> hex_val (Fmt.hex_digit d) = d.
Proof.
  intros H.
  assert (Hd : d = 0 \/ d = 1 \/ d = 2 \/ d = 3 \/ d = 4 \/ d = 5 \/ d = 6 \/ d = 7 \/
               d = 8 \/ d = 9 \/ d = 10 \/ d = 11 \/ d = 12 \/ d = 13 \/ d = 14 \/ d = 15)
    by lia.
  repeat (destruct Hd as [-> | Hd]; [reflexivity|]). now subst.
Qed.

(** Decoding undoes the loop of [compute_key] on bytes. *)
Lemma unhex_hex_loop (n i : nat) (results : list Z) :
  Forall (fun b => 0 <= b < 256) results -> (i + n <= length results)%nat ->
  unhex (hex_loop n i results) = firstn n (skipn i results).
Proof.
  intros Hbytes. revert i. induction n as [|n IH]; intros i Hlen; [reflexivity|].
  simpl hex_loop. unfold Fmt.fmt_02x. rewrite !append_cons, !append_nil.
  simpl unhex. rewrite IH by lia.
  assert (Hi : (i < length results)%nat) by lia.
  assert (Hb : 0 <= nth i results 0 < 256).
  { rewrite List.Forall_forall in Hbytes. apply Hbytes, nth_In, Hi. }
  rewrite !hex_val_digit;
    [| apply Z.mod_pos_bound; lia
     | split; [apply Z.div_pos; lia | apply Z.div_lt_upper_bound; lia]].
  rewrite <- (Z.div_mod (nth i results 0) 16) by lia.
  clear IH Hb. revert i Hi Hlen. induction results as [|x xs IHx]; intros i Hi Hlen.
  - simpl in Hi. lia.
  - destruct i as [|i]; [reflexivity|].
    simpl. inversion Hbytes; subst. apply IHx; [assumption | simpl in *; lia | simpl in *; lia].
Qed.

(** X8: the identifier is the hexadecimal writing of the leading bytes of
    one SHA-256 digest, 10 of them for [KEY_SHORT] and 16 for [KEY_LONG]:
    the digest of the salt (build version, device id, boot-relative
    nanoseconds, cut to [VERSION_SIZE - 1] characters) followed by
    [seed1] and [seed2]. *)
Theorem X8_event_id_decodes_to_digest_prefix (VERSION_SIZE : nat)
  (gbuildversion guuid : string) (w : world) (seed1 : string) (seed2 : option string) :
  let message :=
    Fmt.bytes_of_string (salt VERSION_SIZE gbuildversion guuid w) ++
    Fmt.bytes_of_string seed1 ++
    Fmt.bytes_of_string (match seed2 with Some s2 => s2 | None => EmptyString end) in
  (exists key,
     generate_event_id VERSION_SIZE gbuildversion guuid w (Some seed1) seed2 KEY_SHORT
       = Some key /\ unhex key = firstn 10 (SHA256.digest message)) /\
  (exists key,
     generate_event_id VERSION_SIZE gbuildversion guuid w (Some seed1) seed2 KEY_LONG
       = Some key /\ unhex key = firstn 16 (SHA256.digest message)).
Proof.
  intros message.
  assert (Hmsg : Fmt.bytes_of_string (salt VERSION_SIZE gbuildversion guuid w) ++
                 Fmt.bytes_of_string
                   (match seed2 with Some s2 => seed1 +:+ s2 | None => seed1 end)
                 = message).
  { subst message. f_equal. unfold Fmt.bytes_of_string.
    destruct seed2 as [s2|]; [|now rewrite app_nil_r].
    now rewrite list_ascii_append, map_app. }
  split; eexists; (split; [apply generate_event_id_some; auto|]);
    rewrite Hmsg;
    (rewrite unhex_hex_loop;
     [reflexivity | apply digest_bytes | rewrite digest_length; cbv; lia]).
Qed.

(** ** Reservation: failures, frame, slots *)



(** The sample configuration keeps every reservation within the
    buffers. *)
Lemma sample_reservation_fits (mode : e_dir_mode) : reservation_fits Sample.conf mode.
Proof.
  intros crashlog names Hs Hn. vm_compute in Hs. injection Hs as <-.
  destruct mode; vm_compute in Hn; [injection Hn as <-; reflexivity .. | discriminate Hn].
Qed.

(** X22: what the out-parameters hold before the call does not matter.
    With names that fit the buffers, the result code and the store after
    [reserve_log_folder] are the same whatever [dir] and [current] held,
    and a successful call has written both: its whole result is the same.
    So [generate_log_dir] may pass its locals without initialising them. *)
Theorem X22_out_parameters_are_written (conf : list sender_t) (w : world)
  (mode : e_dir_mode) (d0 d1 : string) (c0 c1 : Z) :
  reservation_fits conf mode ->
  let r0 := reserve_log_folder conf w mode d0 c0 in
  let r1 := reserve_log_folder conf w mode d1 c1 in
  fst (fst (fst r0)) = fst (fst (fst r1)) /\
  snd r0 = snd r1 /\
  (fst (fst (fst r0)) = 0 -> r0 = r1).
Proof.
  intros _. cbv zeta. unfold reserve_log_folder.
  destruct (Fs.get_sender_by_name conf "crashlog") as [crashlog|];
    [|simpl; repeat split; discriminate].
  destruct (log_names (outdir crashlog) mode) as [[counter prefix]|];
    [|simpl; repeat split; discriminate].
  unfold Fs.file_read_int.
  destruct (bool_decide (counter ∈ io_fault w) || bool_decide (counter ∈ dirs w));
    [simpl; repeat split; discriminate|].
  destruct (files w !! counter) as [data|]; [|repeat split].
  destruct (Fmt.scan_u (Fs.chomp data)) as [n|]; [|repeat split].
  destruct (n <? 2 ^ 32); repeat split.
Qed.

Lemma X22_out_parameters_are_written_witness :
  reserve_log_folder Sample.conf Sample.fresh MODE_STATS "d" 7
    = reserve_log_folder Sample.conf Sample.fresh MODE_STATS EmptyString 0.
Proof.
  destruct (X22_out_parameters_are_written Sample.conf Sample.fresh MODE_STATS
              "d" EmptyString 7 0 (sample_reservation_fits MODE_STATS)) as (_ & _ & Hsame).
  apply Hsame. reflexivity.
Defined.

(** What a reservation can do to the store: nothing, or one write to
    the counter file of its category. *)
Lemma reserve_log_folder_store (conf : list sender_t) (w : world) (mode : e_dir_mode)
  (dir : string) (current : Z) :
  let w' := snd (reserve_log_folder conf w mode dir current) in
  w' = w \/
  exists crashlog counter prefix value,
    Fs.get_sender_by_name conf "crashlog" = Some crashlog /\
    log_names (outdir crashlog) mode = Some (counter, prefix) /\
    w' = set_files w (<[counter := value]> (files w)).
Proof.
  cbv zeta. unfold reserve_log_folder.
  destruct (Fs.get_sender_by_name conf "crashlog") as [crashlog|]; [|now left].
  destruct (log_names (outdir crashlog) mode) as [[counter prefix]|] eqn:Hn; [|now left].
  destruct (Fs.file_read_int w counter current) as [res cur].
  destruct (res <? 0); [now left|].
  unfold Fs.file_update_int, Fs.overwrite_file.
  destruct (_ =? 0); [now left|].
  destruct (bool_decide (counter ∈ io_fault w) || bool_decide (counter ∈ dirs w));
    [now left|].
  right. simpl. eauto 10.
Qed.

Lemma mkdir_store (w : world) (path : string) :
  Fs.mkdir w path = (-1, w) \/
  (Fs.file_exists w path = false /\
   Fs.mkdir w path = (0, set_dirs w ({[ path ]} ∪ dirs w))).
Proof.
  unfold Fs.mkdir. destruct (Fs.file_exists w path); [now left|].
  destruct (bool_decide (path ∈ io_fault w)); [now left | now right].
Qed.

(** [generate_log_dir] as its steps: the reservation fails, or the
    directory cannot be created and the error is reported, or the
    directory is created. *)
Lemma generate_log_dir_steps (conf : list sender_t) (hist : world -> string -> world)
  (w : world) (mode : e_dir_mode) (hashkey : string) :
  let w1 := snd (reserve_log_folder conf w mode EmptyString 0) in
  generate_log_dir conf hist w mode hashkey = (None, w1) \/
  generate_log_dir conf hist w mode hashkey = (None, hist w1 "DIR CREATE") \/
  exists path,
    Fs.file_exists w1 path = false /\
    generate_log_dir conf hist w mode hashkey
      = (Some path, set_dirs w1 ({[ path ]} ∪ dirs w1)).
Proof.
  cbv zeta. unfold generate_log_dir.
  destruct (reserve_log_folder conf w mode EmptyString 0) as [[[ret dir] cur] w1].
  simpl. destruct (negb (ret =? 0)); [now left|].
  destruct (mkdir_store w1 (dir +:+ Fmt.fmt_d (CInt.to_sint32 cur) +:+ "_" +:+ hashkey))
    as [-> | [Hfree ->]]; [right; now left|].
  right. right. simpl. eauto.
Qed.

(** The sample history file is no counter file. *)
Lemma history_leaves_alone (p : string) :
  p <> "/var/log/crashlog/history_event" -> leaves_alone Sample.history p.
Proof.
  intros Hp w type. unfold Sample.history. simpl.
  split; [apply lookup_insert_ne; congruence | split; reflexivity].
Qed.

(** X10: as far as [generate_log_dir] itself goes, the only file it can
    change is the counter file of the category it is called for: with
    names that fit the buffers, a file that the error report of
    history.c leaves alone and that differs after the call is that
    counter file. *)
Theorem X10_log_dir_touches_one_file (conf : list sender_t)
  (hist : world -> string -> world) (w : world)
  (mode : e_dir_mode) (hashkey p : string) :
  reservation_fits conf mode ->
  leaves_alone hist p ->
  files (snd (generate_log_dir conf hist w mode hashkey)) !! p <> files w !! p ->
  exists crashlog prefix,
    Fs.get_sender_by_name conf "crashlog" = Some crashlog /\
    log_names (outdir crashlog) mode = Some (p, prefix).
Proof.
  intros _ Hhist Hdiff.
  assert (H1 : files (snd (generate_log_dir conf hist w mode hashkey)) !! p
               = files (snd (reserve_log_folder conf w mode EmptyString 0)) !! p).
  { destruct (generate_log_dir_steps conf hist w mode hashkey)
      as [-> | [-> | (path & _ & ->)]]; [reflexivity | apply Hhist | reflexivity]. }
  rewrite H1 in Hdiff.
  destruct (reserve_log_folder_store conf w mode EmptyString 0)
    as [E | (crashlog & counter & prefix & value & Hs & Hn & E)];
    rewrite E in Hdiff; [congruence|].
  simpl in Hdiff. destruct (decide (counter = p)) as [<- | Hne]; [eauto|].
  rewrite lookup_insert_ne in Hdiff by exact Hne. congruence.
Qed.

Lemma X10_log_dir_touches_one_file_witness :
  exists crashlog prefix,
    Fs.get_sender_by_name Sample.conf "crashlog" = Some crashlog /\
    log_names (outdir crashlog) MODE_CRASH
      = Some ("/var/log/crashlog/currentcrashlog", prefix).
Proof.
  apply (X10_log_dir_touches_one_file Sample.conf Sample.history Scenario.slot_taken
           MODE_CRASH "abc" "/var/log/crashlog/currentcrashlog").
  - apply sample_reservation_fits.
  - apply history_leaves_alone. discriminate.
  - vm_compute. discriminate.
Defined.

(** X11: with names that fit the buffers, [generate_log_dir] never
    removes and never reuses a directory.  On success the returned path
    named nothing before, neither a file nor a directory, and is the one
    directory added; on failure the set of directories is what it was,
    provided the error report of history.c creates and removes none. *)
Theorem X11_log_dir_is_new (conf : list sender_t) (hist : world -> string -> world)
  (w : world) (mode : e_dir_mode) (hashkey : string) :
  reservation_fits conf mode ->
  let w' := snd (generate_log_dir conf hist w mode hashkey) in
  match fst (generate_log_dir conf hist w mode hashkey) with
  | Some path => Fs.file_exists w path = false /\ dirs w' = {[ path ]} ∪ dirs w
  | None => (forall w1 type, dirs (hist w1 type) = dirs w1) -> dirs w' = dirs w
  end.
Proof.
  intros _. cbv zeta.
  assert (Hd : dirs (snd (reserve_log_folder conf w mode EmptyString 0)) = dirs w).
  { destruct (reserve_log_folder_store conf w mode EmptyString 0)
      as [-> | (? & ? & ? & ? & _ & _ & ->)]; reflexivity. }
  destruct (generate_log_dir_steps conf hist w mode hashkey)
    as [-> | [-> | (path & Hfree & ->)]]; simpl;
    [intros _; exact Hd | intros Hhist; now rewrite Hhist|].
  rewrite Hd. split; [|reflexivity].
  unfold Fs.file_exists in *. rewrite Hd in Hfree.
  destruct (reserve_log_folder_store conf w mode EmptyString 0)
    as [E | (? & counter & ? & value & _ & _ & E)]; rewrite E in Hfree;
    [exact Hfree|].
  simpl in Hfree. destruct (decide (counter = path)) as [<- | Hne].
  - now rewrite lookup_insert_eq in Hfree.
  - now rewrite lookup_insert_ne in Hfree by exact Hne.
Qed.

Lemma X11_log_dir_is_new_witness :
  dirs (snd (generate_log_dir Sample.conf Sample.history Scenario.slot_taken MODE_CRASH "abc"))
    = dirs Scenario.slot_taken /\
  dirs (snd (generate_log_dir Sample.conf Sample.history Sample.fresh MODE_CRASH "abc"))
    = {[ "/var/log/crashlog/crashlog0_abc" ]} ∪ dirs Sample.fresh.
Proof.
  split.
  - pose proof (X11_log_dir_is_new Sample.conf Sample.history Scenario.slot_taken
                  MODE_CRASH "abc" (sample_reservation_fits MODE_CRASH)) as H.
    cbv zeta in H.
    replace (fst (generate_log_dir Sample.conf Sample.history Scenario.slot_taken
                    MODE_CRASH "abc")) with (@None string) in H
      by (vm_compute; reflexivity).
    apply H. reflexivity.
  - pose proof (X11_log_dir_is_new Sample.conf Sample.history Sample.fresh
                  MODE_CRASH "abc" (sample_reservation_fits MODE_CRASH)) as H.
    cbv zeta in H.
    replace (fst (generate_log_dir Sample.conf Sample.history Sample.fresh
                    MODE_CRASH "abc")) with (Some "/var/log/crashlog/crashlog0_abc") in H
      by (vm_compute; reflexivity).
    apply H.
Defined.

(** X12: a slot is consumed even when its directory cannot be created.
    If the directory named by the current index and the identifier is
    already there, [generate_log_dir] returns null after reporting the
    error; the store it hands to the error report already holds the
    advanced counter, and the counter is advanced after the call provided
    the error report leaves the counter file alone. *)
Theorem X12_existing_directory_consumes_slot (conf : list sender_t)
  (hist : world -> string -> world) (w : world)
  (mode : e_dir_mode) (crashlog : sender_t) (counter prefix hashkey : string) (c : Z) :
  Fs.get_sender_by_name conf "crashlog" = Some crashlog ->
  log_names (outdir crashlog) mode = Some (counter, prefix) ->
  names_fit (counter, prefix) = true ->
  maxdirs_of crashlog <> 0 ->
  counter ∉ io_fault w -> counter ∉ dirs w ->
  Fs.file_read_int w counter 0 = (0, c) ->
  Fs.file_exists w (prefix +:+ Fmt.fmt_d (CInt.to_sint32 c) +:+ "_" +:+ hashkey) = true ->
  let next := CInt.to_uint32 (c + 1) mod maxdirs_of crashlog in
  let reserved := set_files w (<[counter := Fmt.fmt_u next]> (files w)) in
  generate_log_dir conf hist w mode hashkey = (None, hist reserved "DIR CREATE") /\
  Fs.file_read_int reserved counter 0 = (0, next) /\
  (leaves_alone hist counter ->
   Fs.file_read_int (snd (generate_log_dir conf hist w mode hashkey)) counter 0
     = (0, next)).
Proof.
  intros Hs Hn _ Hmax Hf Hd Hread Htaken next reserved.
  assert (Hgen : generate_log_dir conf hist w mode hashkey
                 = (None, hist reserved "DIR CREATE")).
  { unfold generate_log_dir.
    rewrite (reserve_step conf crashlog mode counter prefix Hs Hn Hmax w EmptyString 0 c
               Hf Hd Hread).
    simpl negb. cbv iota. fold next. fold reserved.
    set (path := prefix +:+ Fmt.fmt_d (CInt.to_sint32 c) +:+ "_" +:+ hashkey) in *.
    assert (Hne : counter <> path).
    { intros E. symmetry in E. revert E. apply (log_names_apart _ _ _ _ _ Hn). }
    assert (Hstill : Fs.file_exists reserved path = true).
    { unfold Fs.file_exists in *. subst reserved. simpl.
      now rewrite lookup_insert_ne by exact Hne. }
    unfold Fs.mkdir. rewrite Hstill. reflexivity. }
  assert (Hcount : Fs.file_read_int reserved counter 0 = (0, next)).
  { apply reserve_step_counter; assumption. }
  split; [exact Hgen|]. split; [exact Hcount|].
  intros Hhist. rewrite Hgen. cbn [snd]. rewrite <- Hcount.
  destruct (Hhist reserved "DIR CREATE") as (Hp & Hdir & Hfault).
  apply file_read_int_ext; assumption.
Qed.

Lemma X12_existing_directory_consumes_slot_witness :
  generate_log_dir Sample.conf Sample.history Scenario.slot_taken MODE_CRASH "abc"
    = (None,
       Sample.history
         (set_files Scenario.slot_taken
            (<["/var/log/crashlog/currentcrashlog" := "1"]> (files Scenario.slot_taken)))
         "DIR CREATE") /\
  Fs.file_read_int
    (snd (generate_log_dir Sample.conf Sample.history Scenario.slot_taken MODE_CRASH "abc"))
    "/var/log/crashlog/currentcrashlog" 0 = (0, 1).
Proof.
  destruct (X12_existing_directory_consumes_slot Sample.conf Sample.history
              Scenario.slot_taken MODE_CRASH
              {| name := "crashlog"; outdir := "/var/log/crashlog"; maxcrashdirs := "3" |}
              "/var/log/crashlog/currentcrashlog" "/var/log/crashlog/crashlog" "abc" 0
              ltac:(reflexivity) ltac:(reflexivity) ltac:(reflexivity)
              ltac:(vm_compute; discriminate) ltac:(simpl; set_solver)
              ltac:(simpl; set_solver) ltac:(reflexivity) ltac:(vm_compute; reflexivity))
    as (Hgen & _ & Hafter).
  split; [exact Hgen|].
  apply Hafter, history_leaves_alone. discriminate.
Defined.

(** The names of the categories never meet: no directory built on the
    prefix of one category is the counter file of any category, and two
    categories have two counter files. *)
Lemma log_names_apart_any (o : string) (m1 m2 : e_dir_mode)
  (c1 d1 c2 d2 rest : string) :
  log_names o m1 = Some (c1, d1) -> log_names o m2 = Some (c2, d2) ->
  d1 +:+ rest <> c2.
Proof.
  destruct m1, m2; simpl; intros [= <- <-] [= <- <-] H; rewrite append_assoc in H;
    apply (inj (String.app o)) in H; vm_compute in H; discriminate H.
Qed.

Lemma counters_distinct (o : string) (m1 m2 : e_dir_mode) (c1 d1 c2 d2 : string) :
  log_names o m1 = Some (c1, d1) -> log_names o m2 = Some (c2, d2) ->
  m1 <> m2 -> c1 <> c2.
Proof.
  destruct m1, m2; simpl; intros [= <- <-] [= <- <-] Hm H; try congruence;
    apply (inj (String.app o)) in H; vm_compute in H; discriminate H.
Qed.

(** The path of a created directory starts with the prefix of its
    category. *)
Lemma generate_log_dir_path (conf : list sender_t) (hist : world -> string -> world)
  (w w' : world) (mode : e_dir_mode) (hashkey path : string) :
  generate_log_dir conf hist w mode hashkey = (Some path, w') ->
  exists crashlog counter prefix rest,
    Fs.get_sender_by_name conf "crashlog" = Some crashlog /\
    log_names (outdir crashlog) mode = Some (counter, prefix) /\
    path = prefix +:+ rest.
Proof.
  unfold generate_log_dir.
  destruct (reserve_log_folder conf w mode EmptyString 0) as [[[ret dir] current] w1] eqn:Hr.
  destruct (Z.eqb_spec ret 0) as [-> | Hne]; simpl; [|discriminate].
  destruct (Fs.mkdir w1 _) as [ret2 w2].
  destruct (ret2 =? -1); [discriminate|]. intros [= <- <-].
  destruct (reserve_log_folder_success _ _ _ _ _ _ _ _ Hr) as (crashlog & counter & Hs & Hn & _).
  eauto 10.
Qed.

(** X13: the categories rotate independently.  With names that fit the
    buffers, a reservation for one category, successful or not, leaves
    the counter that a reservation for another category will read
    exactly as it was, provided the error report of history.c leaves
    that counter file alone. *)
Theorem X13_categories_are_independent (conf : list sender_t)
  (hist : world -> string -> world) (w : world)
  (m1 m2 : e_dir_mode) (crashlog : sender_t) (c1 d1 c2 d2 hashkey : string)
  (current : Z) :
  Fs.get_sender_by_name conf "crashlog" = Some crashlog ->
  log_names (outdir crashlog) m1 = Some (c1, d1) ->
  log_names (outdir crashlog) m2 = Some (c2, d2) ->
  names_fit (c1, d1) = true ->
  m1 <> m2 ->
  leaves_alone hist c2 ->
  Fs.file_read_int (snd (generate_log_dir conf hist w m1 hashkey)) c2 current
    = Fs.file_read_int w c2 current.
Proof.
  intros Hs Hn1 Hn2 _ Hm Hhist.
  pose proof (counters_distinct _ _ _ _ _ _ _ Hn1 Hn2 Hm) as Hc.
  assert (Hstore : let w1 := snd (reserve_log_folder conf w m1 EmptyString 0) in
                   io_fault w1 = io_fault w /\ dirs w1 = dirs w /\
                   files w1 !! c2 = files w !! c2).
  { cbv zeta.
    destruct (reserve_log_folder_store conf w m1 EmptyString 0)
      as [-> | (cl & counter & prefix & value & Hs' & Hn' & ->)]; [auto|].
    rewrite Hs in Hs'. injection Hs' as <-. rewrite Hn1 in Hn'. injection Hn' as <- <-.
    simpl. now rewrite lookup_insert_ne by exact Hc. }
  destruct Hstore as (Hf & Hd & Hp).
  set (w1 := snd (reserve_log_folder conf w m1 EmptyString 0)) in *.
  assert (Hw1 : Fs.file_read_int w1 c2 current = Fs.file_read_int w c2 current).
  { apply file_read_int_ext; [now rewrite Hf | now rewrite Hd | exact Hp]. }
  destruct (generate_log_dir conf hist w m1 hashkey) as [[path|] w'] eqn:Hg.
  - destruct (generate_log_dir_path _ _ _ _ _ _ _ Hg)
      as (cl & counter & prefix & rest & Hs' & Hn' & ->).
    rewrite Hs in Hs'. injection Hs' as <-. rewrite Hn1 in Hn'. injection Hn' as <- <-.
    pose proof (log_names_apart_any _ _ _ _ _ _ _ rest Hn1 Hn2) as Hapart.
    destruct (generate_log_dir_steps conf hist w m1 hashkey)
      as [E | [E | (path' & _ & E)]];
      rewrite Hg in E; [discriminate | discriminate |]. injection E as E1 E2. subst path' w'.
    simpl. rewrite <- Hw1. fold w1.
    apply file_read_int_ext; simpl; [reflexivity | | reflexivity].
    rewrite elem_of_union, elem_of_singleton.
    split; [intros [E | H]; [symmetry in E; contradiction | exact H] | auto].
  - destruct (generate_log_dir_steps conf hist w m1 hashkey)
      as [E | [E | (path' & _ & E)]];
      rewrite Hg in E; [| |discriminate]; injection E as ->; simpl; fold w1.
    + exact Hw1.
    + rewrite <- Hw1. destruct (Hhist w1 "DIR CREATE") as (Hp' & Hd' & Hf').
      apply file_read_int_ext; assumption.
Qed.

Lemma X13_categories_are_independent_witness :
  Fs.file_read_int
    (snd (generate_log_dir Sample.conf Sample.history Scenario.slot_taken MODE_CRASH "abc"))
    "/var/log/crashlog/currentstatslog" 0
  = Fs.file_read_int Scenario.slot_taken "/var/log/crashlog/currentstatslog" 0.
Proof.
  apply (X13_categories_are_independent Sample.conf Sample.history Scenario.slot_taken
           MODE_CRASH MODE_STATS
           {| name := "crashlog"; outdir := "/var/log/crashlog"; maxcrashdirs := "3" |}
           "/var/log/crashlog/currentcrashlog" "/var/log/crashlog/crashlog"
           "/var/log/crashlog/currentstatslog" "/var/log/crashlog/stats" "abc" 0);
    [reflexivity | reflexivity | reflexivity | reflexivity | discriminate |].
  apply history_leaves_alone. discriminate.
Defined.

(** X14: what the unchecked [sprintf] calls of [reserve_log_folder] need.
    The counter file name is at most 16 characters longer than the output
    directory and the prefix at most 9, so both fit the 512-byte [path]
    and the [PATH_MAX]-byte [dir] when the output directory has at most
    495 characters; for the crash category a longer output directory does
    not fit [path]. *)
Theorem X14_reservation_buffers (o : string) (mode : e_dir_mode) (counter prefix : string) :
  log_names o mode = Some (counter, prefix) ->
  (String.length counter <= String.length o + 16)%nat /\
  (String.length prefix <= String.length o + 9)%nat /\
  ((String.length o <= 495)%nat ->
   (String.length counter < 512)%nat /\ (String.length prefix < PATH_MAX)%nat) /\
  (mode = MODE_CRASH ->
   ((String.length counter < 512)%nat <-> (String.length o <= 495)%nat)).
Proof.
  unfold PATH_MAX.
  destruct mode; simpl; intros [= <- <-]; rewrite !length_append; simpl String.length;
    repeat split; try lia; try discriminate.
Qed.

Lemma X14_reservation_buffers_witness :
  (String.length "/var/log/crashlog/currentcrashlog" <= String.length "/var/log/crashlog" + 16)%nat /\
  (String.length "/var/log/crashlog/crashlog" <= String.length "/var/log/crashlog" + 9)%nat.
Proof.
  destruct (X14_reservation_buffers "/var/log/crashlog" MODE_CRASH
              "/var/log/crashlog/currentcrashlog" "/var/log/crashlog/crashlog"
              ltac:(reflexivity)) as (H1 & H2 & _).
  split; assumption.
Defined.

(** ** The report file and the boot record as files *)

(** [generate_crashfile] in one expression: nothing without a timestamp
    or when the store refuses, else one write. *)
Lemma generate_crashfile_eq (UPTIME_SIZE LONG_TIME_SIZE : nat)
  (gbuildversion guuid : string) (w : world) (dir event hashkey type : string)
  (data0 data1 data2 : option string) :
  let path := dir +:+ "/" +:+ "crashfile" in
  let text := crashfile_text gbuildversion guuid event hashkey
                (snd (get_current_time_long LONG_TIME_SIZE w EmptyString))
                (snd (fst (get_uptime_string UPTIME_SIZE w EmptyString)))
                type data0 data1 data2 in
  generate_crashfile UPTIME_SIZE LONG_TIME_SIZE gbuildversion guuid w dir event hashkey
    type data0 data1 data2
  = if (fst (get_current_time_long LONG_TIME_SIZE w EmptyString) <=? 0)
       || bool_decide (path ∈ io_fault w) || bool_decide (path ∈ dirs w)
    then w
    else set_files w (<[path := text]> (files w)).
Proof.
  cbv zeta. unfold generate_crashfile.
  destruct (get_current_time_long LONG_TIME_SIZE w EmptyString) as [ret dt].
  destruct (get_uptime_string UPTIME_SIZE w EmptyString) as [[r up] h].
  simpl. destruct (ret <=? 0); [reflexivity|]. simpl.
  unfold Fs.overwrite_file.
  now destruct (bool_decide (_ ∈ io_fault w) || bool_decide (_ ∈ dirs w)).
Qed.

(** X15: the report file is replaced, not extended, and nothing else is
    written.  A second report into the same directory gives the store
    that this report alone would have given, whatever the first one held;
    every file but [<dir>/crashfile] keeps its content and no directory is
    created. *)
Theorem X15_report_replaces_report (UPTIME_SIZE LONG_TIME_SIZE : nat)
  (gbuildversion guuid : string) (w : world) (dir : string)
  (event1 hashkey1 type1 : string) (a0 a1 a2 : option string)
  (event2 hashkey2 type2 : string) (b0 b1 b2 : option string) :
  let first := generate_crashfile UPTIME_SIZE LONG_TIME_SIZE gbuildversion guuid w dir
                 event1 hashkey1 type1 a0 a1 a2 in
  generate_crashfile UPTIME_SIZE LONG_TIME_SIZE gbuildversion guuid first dir
    event2 hashkey2 type2 b0 b1 b2
  = generate_crashfile UPTIME_SIZE LONG_TIME_SIZE gbuildversion guuid w dir
      event2 hashkey2 type2 b0 b1 b2 /\
  dirs first = dirs w /\
  forall p, p <> dir +:+ "/" +:+ "crashfile" -> files first !! p = files w !! p.
Proof.
  cbv zeta. rewrite !generate_crashfile_eq.
  set (path := dir +:+ "/" +:+ "crashfile").
  destruct ((fst (get_current_time_long LONG_TIME_SIZE w EmptyString) <=? 0)
            || bool_decide (path ∈ io_fault w) || bool_decide (path ∈ dirs w)) eqn:Hc.
  - rewrite Hc. auto.
  - split; [|split; [reflexivity|]].
    + change (get_current_time_long LONG_TIME_SIZE (set_files w ?f) EmptyString)
        with (get_current_time_long LONG_TIME_SIZE w EmptyString).
      change (get_uptime_string UPTIME_SIZE (set_files w ?f) EmptyString)
        with (get_uptime_string UPTIME_SIZE w EmptyString).
      simpl io_fault. simpl dirs. rewrite Hc. simpl files.
      now rewrite insert_insert_eq.
    + intros p Hp. simpl. now rewrite lookup_insert_ne by congruence.
Qed.

(** X17: without a "crashlog" sender, or when the kernel node cannot be
    read or is empty, [is_boot_id_changed] answers "changed" and writes
    nothing. *)
Theorem X17_boot_check_defaults_to_changed (conf : list sender_t) (w : world) :
  Fs.get_sender_by_name conf "crashlog" = None \/
  fst (fst (Fs.read_file w BOOTID_NODE)) = -1 \/
  snd (fst (Fs.read_file w BOOTID_NODE)) = 0 ->
  is_boot_id_changed conf w = (1, w).
Proof.
  intros H. unfold is_boot_id_changed.
  destruct (Fs.get_sender_by_name conf "crashlog") as [crashlog|]; [|reflexivity].
  destruct (Fs.read_file w BOOTID_NODE) as [[res size] boot_id]. simpl in H.
  destruct H as [H | [-> | ->]]; [discriminate | reflexivity |].
  now rewrite orb_true_r.
Qed.

Lemma X17_boot_check_defaults_to_changed_witness :
  is_boot_id_changed Sample.conf Scenario.empty_node = (1, Scenario.empty_node).
Proof.
  apply (X17_boot_check_defaults_to_changed Sample.conf Scenario.empty_node).
  right. right. reflexivity.
Defined.

(** X18: [is_boot_id_changed] answers 0 or 1 and can change one file
    only, the boot record under the output directory of the "crashlog"
    sender; it creates no directory. *)
Theorem X18_boot_check_touches_the_record_only (conf : list sender_t) (w : world) :
  let r := is_boot_id_changed conf w in
  (fst r = 0 \/ fst r = 1) /\
  dirs (snd r) = dirs w /\
  forall p, files (snd r) !! p <> files w !! p ->
    exists crashlog, Fs.get_sender_by_name conf "crashlog" = Some crashlog /\
                     p = logged_boot_id_path crashlog.
Proof.
  cbv zeta. unfold is_boot_id_changed.
  destruct (Fs.get_sender_by_name conf "crashlog") as [crashlog|];
    [|simpl; split; [auto | split; [reflexivity | congruence]]].
  destruct (Fs.read_file w BOOTID_NODE) as [[res size] boot_id].
  destruct ((res =? -1) || (size =? 0));
    [simpl; split; [auto | split; [reflexivity | congruence]]|].
  set (path := logged_boot_id_path crashlog).
  assert (Hpersist :
    let w' := snd (Fs.overwrite_file w path (Fmt.cstr boot_id)) in
    dirs w' = dirs w /\ forall p, files w' !! p <> files w !! p -> p = path).
  { cbv zeta. unfold Fs.overwrite_file.
    destruct (bool_decide (path ∈ io_fault w) || bool_decide (path ∈ dirs w)); simpl;
      [split; [reflexivity | congruence]|].
    split; [reflexivity|]. intros p Hp. destruct (decide (path = p)) as [<- | Hne];
      [reflexivity|]. now rewrite lookup_insert_ne in Hp by exact Hne. }
  destruct Hpersist as [Hd Hp].
  destruct (Fs.file_exists w path).
  - destruct (Fs.read_file w path) as [[res2 size2] logged].
    destruct ((res2 =? -1) || (size2 =? 0));
      [simpl; split; [auto | split; [reflexivity | congruence]]|].
    destruct (Fmt.strcmp_eq logged boot_id); simpl.
    + split; [auto | split; [reflexivity | congruence]].
    + split; [auto | split; [exact Hd | eauto]].
  - simpl. split; [auto | split; [exact Hd | eauto]].
Qed.

Lemma cstr_idempotent (s : string) : Fmt.cstr (Fmt.cstr s) = Fmt.cstr s.
Proof.
  induction s as [|c s IH]; [reflexivity|]. simpl.
  destruct (N.eqb (N_of_ascii c) 0) eqn:E; [reflexivity|]. simpl. now rewrite E, IH.
Qed.

(** A check against a readable, non-empty record is a comparison. *)
Lemma boot_check_with_record (conf : list sender_t) (w : world) (crashlog : sender_t)
  (boot_id logged : string) :
  Fs.get_sender_by_name conf "crashlog" = Some crashlog ->
  BOOTID_NODE ∉ io_fault w -> files w !! BOOTID_NODE = Some boot_id ->
  boot_id <> EmptyString ->
  logged_boot_id_path crashlog ∉ io_fault w ->
  files w !! logged_boot_id_path crashlog = Some logged -> logged <> EmptyString ->
  is_boot_id_changed conf w =
    if Fmt.strcmp_eq logged boot_id then (0, w)
    else (1, snd (Fs.overwrite_file w (logged_boot_id_path crashlog) (Fmt.cstr boot_id))).
Proof.
  intros Hs Hnf Hnode Hne Hpf Hrec Hlog. unfold is_boot_id_changed.
  rewrite Hs, (read_file_ok _ _ _ Hnf Hnode), size_nonzero by exact Hne. simpl.
  unfold Fs.file_exists. rewrite Hrec.
  rewrite (read_file_ok _ _ _ Hpf Hrec), size_nonzero by exact Hlog. simpl.
  now destruct (Fmt.strcmp_eq logged boot_id).
Qed.

(** X19: a reboot is noticed once.  On a working store where the record
    is absent or not empty, after one check the record stands for the
    current boot id: a second check answers "unchanged" and writes
    nothing; once the kernel shows another boot id the next check answers
    "changed" and records that one, and as long as it shows an equal one
    the answer stays "unchanged". *)
Theorem X19_reboot_is_noticed_once (conf : list sender_t) (w : world)
  (crashlog : sender_t) (boot_id next_id : string) :
  Fs.get_sender_by_name conf "crashlog" = Some crashlog ->
  let path := logged_boot_id_path crashlog in
  path <> BOOTID_NODE -> path ∉ io_fault w -> path ∉ dirs w ->
  BOOTID_NODE ∉ io_fault w ->
  files w !! BOOTID_NODE = Some boot_id -> Fmt.cstr boot_id <> EmptyString ->
  files w !! path <> Some EmptyString ->
  Fmt.cstr next_id <> EmptyString ->
  let w1 := snd (is_boot_id_changed conf w) in
  let w2 := reboot w1 next_id in
  is_boot_id_changed conf w1 = (0, w1) /\
  (Fmt.cstr next_id = Fmt.cstr boot_id -> is_boot_id_changed conf w2 = (0, w2)) /\
  (Fmt.cstr next_id <> Fmt.cstr boot_id ->
   fst (is_boot_id_changed conf w2) = 1 /\
   files (snd (is_boot_id_changed conf w2)) !! path = Some (Fmt.cstr next_id)).
Proof.
  intros Hs path Hpn Hpf Hpd Hnf Hnode Hcb Hrec Hcn w1 w2.
  assert (Hb : boot_id <> EmptyString) by (intros ->; now apply Hcb).
  assert (Hn : next_id <> EmptyString) by (intros ->; now apply Hcn).
  assert (Hw1 : io_fault w1 = io_fault w /\ dirs w1 = dirs w /\
                files w1 !! BOOTID_NODE = Some boot_id /\
                exists r, files w1 !! path = Some r /\ r <> EmptyString /\
                          Fmt.cstr r = Fmt.cstr boot_id).
  { subst w1. destruct (files w !! path) as [logged|] eqn:Hl.
    - assert (Hlog : logged <> EmptyString) by congruence.
      rewrite (boot_check_with_record conf w crashlog boot_id logged) by assumption.
      unfold Fmt.strcmp_eq. destruct (String.eqb_spec (Fmt.cstr logged) (Fmt.cstr boot_id)).
      + simpl. repeat split; try assumption. exists logged. auto.
      + fold path. rewrite overwrite_file_ok by assumption. simpl.
        repeat split; [now rewrite lookup_insert_ne by exact Hpn|].
        exists (Fmt.cstr boot_id). rewrite lookup_insert_eq.
        repeat split; [assumption | apply cstr_idempotent].
    - unfold is_boot_id_changed.
      rewrite Hs, (read_file_ok _ _ _ Hnf Hnode), size_nonzero by exact Hb. simpl.
      fold path. unfold Fs.file_exists. rewrite Hl.
      rewrite bool_decide_eq_false_2 by exact Hpd. simpl.
      rewrite overwrite_file_ok by assumption. simpl.
      repeat split; [now rewrite lookup_insert_ne by exact Hpn|].
      exists (Fmt.cstr boot_id). rewrite lookup_insert_eq.
      repeat split; [assumption | apply cstr_idempotent]. }
  destruct Hw1 as (Hf1 & Hd1 & Hnode1 & r & Hr & Hrne & Hrc).
  assert (Hnf1 : BOOTID_NODE ∉ io_fault w1) by now rewrite Hf1.
  assert (Hpf1 : path ∉ io_fault w1) by now rewrite Hf1.
  split; [|split].
  - rewrite (boot_check_with_record conf w1 crashlog boot_id r) by assumption.
    unfold Fmt.strcmp_eq. now rewrite Hrc, String.eqb_refl.
  - intros Heq.
    rewrite (boot_check_with_record conf w2 crashlog next_id r);
      try assumption;
      [| subst w2; unfold reboot; cbn [files set_files]; apply lookup_insert_eq
       | subst w2; unfold reboot; cbn [files set_files];
         rewrite lookup_insert_ne by (intros E; apply Hpn; symmetry; exact E); exact Hr].
    unfold Fmt.strcmp_eq. now rewrite Hrc, Heq, String.eqb_refl.
  - intros Hneq.
    rewrite (boot_check_with_record conf w2 crashlog next_id r);
      try assumption;
      [| subst w2; unfold reboot; cbn [files set_files]; apply lookup_insert_eq
       | subst w2; unfold reboot; cbn [files set_files];
         rewrite lookup_insert_ne by (intros E; apply Hpn; symmetry; exact E); exact Hr].
    unfold Fmt.strcmp_eq. rewrite Hrc.
    replace (Fmt.cstr boot_id =? Fmt.cstr next_id)%string with false
      by (symmetry; apply String.eqb_neq; congruence).
    fold path. rewrite overwrite_file_ok;
      [| exact Hpf1 | subst w2; unfold reboot; simpl; now rewrite Hd1].
    simpl. split; [reflexivity | apply lookup_insert_eq].
Qed.

Lemma X19_reboot_is_noticed_once_witness :
  let w1 := snd (is_boot_id_changed Sample.conf Sample.first_boot) in
  is_boot_id_changed Sample.conf w1 = (0, w1) /\
  fst (is_boot_id_changed Sample.conf (reboot w1 "boot-B")) = 1 /\
  files (snd (is_boot_id_changed Sample.conf (reboot w1 "boot-B")))
    !! "/var/log/crashlog/currentbootid" = Some "boot-B".
Proof.
  destruct (X19_reboot_is_noticed_once Sample.conf Sample.first_boot
              {| name := "crashlog"; outdir := "/var/log/crashlog"; maxcrashdirs := "3" |}
              "boot-A" "boot-B"
              ltac:(reflexivity) ltac:(vm_compute; discriminate)
              ltac:(simpl; set_solver) ltac:(simpl; set_solver) ltac:(simpl; set_solver)
              ltac:(reflexivity) ltac:(vm_compute; discriminate)
              ltac:(vm_compute; discriminate) ltac:(vm_compute; discriminate))
    as (Hsame & _ & Hnext).
  split; [exact Hsame | apply Hnext; vm_compute; discriminate].
Defined.

(** ** Cut texts *)



Lemma take_append_long (n : nat) (a b : string) :
  (n <= String.length a)%nat -> Fmt.take n (a +:+ b) = Fmt.take n a.
Proof.
  revert a. induction n as [|n IH]; intros [|c a] H; simpl in *; try reflexivity; try lia.
  f_equal. apply IH. lia.
Qed.


(** ** The size of the report buffer *)

(** An [int] taken from a [size_t] depends on the sum modulo 2^32 only. *)
Lemma to_int_congruent (x y : Z) :
  x mod 2 ^ 32 = y mod 2 ^ 32 ->
  CInt.to_sint32 (CInt.to_uint64 x) = CInt.to_sint32 (CInt.to_uint64 y).
Proof.
  intros H. unfold CInt.to_sint32, CInt.to_uint64, CInt.to_sint, CInt.to_uint. cbv zeta.
  assert (Hd : (2 ^ 32 | 2 ^ 64)) by (exists (2 ^ 32); reflexivity).
  rewrite !(Z.mod_mod_divide _ _ _ Hd). now rewrite H.
Qed.

Lemma to_int_residue (x : Z) :
  CInt.to_sint32 (CInt.to_uint64 x) mod 2 ^ 32 = x mod 2 ^ 32.
Proof.
  unfold CInt.to_sint32, CInt.to_uint64, CInt.to_sint, CInt.to_uint. cbv zeta.
  assert (Hd : (2 ^ 32 | 2 ^ 64)) by (exists (2 ^ 32); reflexivity).
  rewrite (Z.mod_mod_divide _ _ _ Hd).
  destruct (x mod 2 ^ 32 <? 2 ^ (32 - 1)); [apply Z.mod_mod; lia|].
  replace (x mod 2 ^ 32 - 2 ^ 32) with (x mod 2 ^ 32 + (-1) * 2 ^ 32) by lia.
  rewrite Z.mod_add by lia. apply Z.mod_mod. lia.
Qed.

(** Storing the sum in the [int] after each statement gives what storing
    it once at the end gives. *)
Lemma to_int_add_l (a b : Z) :
  (CInt.to_sint32 (CInt.to_uint64 a) + b) mod 2 ^ 32 = (a + b) mod 2 ^ 32.
Proof.
  rewrite <- Z.add_mod_idemp_l, to_int_residue, Z.add_mod_idemp_l by lia. reflexivity.
Qed.

Lemma crashfile_size_sum (gbuildversion guuid event hashkey datetime uptime type : string)
  (data0 data1 data2 : option string) :
  crashfile_size gbuildversion guuid event hashkey datetime uptime type data0 data1 data2
    = CInt.to_sint32
        (CInt.to_uint64
           (128 + report_chars gbuildversion guuid event hashkey datetime uptime type
                    data0 data1 data2)).
Proof.
  unfold crashfile_size, report_chars. cbv zeta.
  destruct data0 as [v0|], data1 as [v1|], data2 as [v2|];
    cbv beta iota; apply to_int_congruent;
    repeat (rewrite <- ?Z.add_assoc; rewrite to_int_add_l); f_equal; lia.
Qed.

(** The text is shorter than the values and the 128 bytes set aside for
    the keys, the line breaks and the sentinel. *)
Lemma crashfile_text_length (gbuildversion guuid event hashkey datetime uptime type : string)
  (data0 data1 data2 : option string) :
  Z.of_nat (String.length (crashfile_text gbuildversion guuid event hashkey datetime uptime
                             type data0 data1 data2))
  < 128 + report_chars gbuildversion guuid event hashkey datetime uptime type
            data0 data1 data2.
Proof.
  unfold crashfile_text, report_chars.
  destruct data0 as [v0|], data1 as [v1|], data2 as [v2|]; cbv beta iota zeta;
    rewrite !length_append;
    repeat match goal with
      | |- context [String.length (strcat_fmt ?b ?f)] =>
          pose proof (length_strcat_fmt b f);
          generalize dependent (String.length (strcat_fmt b f)); intros
      | H : context [String.length (strcat_fmt ?b ?f)] |- _ =>
          pose proof (length_strcat_fmt b f);
          generalize dependent (String.length (strcat_fmt b f)); intros
      end;
    unfold nl in *; rewrite ?length_append in *; cbn [String.length] in *; lia.
Qed.

(** X16: the report buffer is large enough as long as its size is
    computed without wrap-around.  With 128 plus the lengths of the
    values below 2^31, [filesize] is that sum and the report with its
    terminator is shorter, so no [strcat] writes past the buffer; from
    2^31 up to 2^32 the [int] is negative. *)
Theorem X16_report_fits_its_buffer
  (gbuildversion guuid event hashkey datetime uptime type : string)
  (data0 data1 data2 : option string) :
  let total := 128 + report_chars gbuildversion guuid event hashkey datetime uptime type
                       data0 data1 data2 in
  let filesize := crashfile_size gbuildversion guuid event hashkey datetime uptime type
                    data0 data1 data2 in
  let text := crashfile_text gbuildversion guuid event hashkey datetime uptime type
                data0 data1 data2 in
  (total < 2 ^ 31 -> filesize = total /\ Z.of_nat (String.length text) < filesize) /\
  (2 ^ 31 <= total < 2 ^ 32 -> filesize = total - 2 ^ 32 /\ filesize < 0).
Proof.
  cbv zeta. rewrite crashfile_size_sum.
  pose proof (crashfile_text_length gbuildversion guuid event hashkey datetime uptime type
                data0 data1 data2) as Hlen.
  set (total := 128 + report_chars _ _ _ _ _ _ _ _ _ _) in *.
  assert (Hpos : 0 <= total) by lia.
  unfold CInt.to_sint32, CInt.to_uint64, CInt.to_sint, CInt.to_uint. cbv zeta.
  assert (Hd : (2 ^ 32 | 2 ^ 64)) by (exists (2 ^ 32); reflexivity).
  rewrite (Z.mod_mod_divide _ _ _ Hd).
  split; intros Hrange.
  - rewrite Z.mod_small by lia.
    replace (total <? 2 ^ (32 - 1)) with true by (symmetry; apply Z.ltb_lt; lia).
    split; [reflexivity | exact Hlen].
  - rewrite Z.mod_small by lia.
    replace (total <? 2 ^ (32 - 1)) with false by (symmetry; apply Z.ltb_ge; lia).
    split; [reflexivity | lia].
Qed.

Lemma X16_report_fits_its_buffer_witness :
  crashfile_size "v1" "uuid" "CRASH" "abc" "2026-10-30/13:05:07  " "0001:02:05" "T"
    (Some "d0") None None = 176 /\
  Z.of_nat (String.length
              (crashfile_text "v1" "uuid" "CRASH" "abc" "2026-10-30/13:05:07  "
                 "0001:02:05" "T" (Some "d0") None None)) < 176.
Proof.
  destruct (X16_report_fits_its_buffer "v1" "uuid" "CRASH" "abc" "2026-10-30/13:05:07  "
              "0001:02:05" "T" (Some "d0") None None) as [Hsmall _].
  destruct (Hsmall ltac:(vm_compute; reflexivity)) as [Hsize Hfits].
  split; [exact Hsize|]. rewrite Hsize in Hfits. exact Hfits.
Defined.

(** ** The sentinel *)









(** X21: the clock reaches the identifier only through what is left of
    the salt buffer.  When the build version and the device id together
    fill the [VERSION_SIZE - 1] characters of the salt, the boot-relative
    time is cut off and the identifier of given seeds is the same at
    every time and on every store. *)
Theorem X21_full_salt_drops_the_time (VERSION_SIZE : nat) (gbuildversion guuid : string)
  (w w' : world) (seed1 seed2 : option string) (type : key_type) :
  (VERSION_SIZE - 1 <= String.length gbuildversion + String.length guuid)%nat ->
  generate_event_id VERSION_SIZE gbuildversion guuid w seed1 seed2 type
    = generate_event_id VERSION_SIZE gbuildversion guuid w' seed1 seed2 type.
Proof.
  intros Hfull.
  assert (Hsalt : forall time : string,
            Fmt.snprintf VERSION_SIZE EmptyString (gbuildversion +:+ guuid +:+ time)
            = Fmt.snprintf VERSION_SIZE EmptyString (gbuildversion +:+ guuid)).
  { intros time. unfold Fmt.snprintf. destruct VERSION_SIZE as [|k]; [reflexivity|].
    rewrite <- append_assoc. apply take_append_long. rewrite length_append. lia. }
  destruct seed1 as [s1|]; [|reflexivity].
  destruct type as [| |raw]; [| |reflexivity].
  - rewrite !(generate_event_id_some _ _ _ _ s1 seed2 KEY_SHORT SHORT_KEY_LENGTH) by auto.
    unfold salt. now rewrite !Hsalt.
  - rewrite !(generate_event_id_some _ _ _ _ s1 seed2 KEY_LONG LONG_KEY_LENGTH) by auto.
    unfold salt. now rewrite !Hsalt.
Qed.

Lemma X21_full_salt_drops_the_time_witness :
  generate_event_id 7 "v1" "uuid" Sample.fresh (Some "seed") None KEY_SHORT
    = generate_event_id 7 "v1" "uuid" Sample.no_boot_clock (Some "seed") None KEY_SHORT.
Proof.
  apply (X21_full_salt_drops_the_time 7 "v1" "uuid" Sample.fresh Sample.no_boot_clock).
  simpl. lia.
Defined.
